(** * video-DD: list synchronisation and optimistic toggles

    A shallow embedding of the client-side list logic of the video-DD
    front end: the merge-by-[_id] used by the paginated views (Home,
    SuggestedVideos, Threads), the comment pager, the response-envelope
    unwrapping of the playlist panel, and the optimistic like, subscribe
    and playlist toggles of the Watch page.

    ECMAScript [Map] objects are association lists kept in insertion
    order; React state cells are record fields; an [async] handler is
    split at its [await] into the part that runs synchronously and the
    part that runs when the promise settles. *)

From Stdlib Require Import List String Ascii ZArith Bool Arith Lia.
Import ListNotations.
Open Scope string_scope.
Open Scope Z_scope.

Set Warnings "-register-all".

(** ** Insertion-ordered maps: [Map<string, V>] *)

Module JsMap.
Section Defs.
Context {V : Type}.

(** Entries in insertion order; [set] never creates a second entry
    for a key, so the keys of a map built from [empty] are distinct. *)
Definition t := list (string * V).

Definition empty : t := [].

(** [map.set(k, v)]: an existing key keeps its position and takes the
    new value, a new key goes to the end. *)
Fixpoint set (k : string) (v : V) (m : t) : t :=
  match m with
  | [] => [(k, v)]
  | (k', v') :: m' =>
      if String.eqb k k' then (k, v) :: m' else (k', v') :: set k v m'
  end.

Fixpoint get (k : string) (m : t) : option V :=
  match m with
  | [] => None
  | (k', v') :: m' => if String.eqb k k' then Some v' else get k m'
  end.

Definition keys (m : t) : list string := map fst m.

(** [map.values()], read off by [Array.from]. *)
Definition values (m : t) : list V := map snd m.

Definition has (k : string) (m : t) : bool :=
  existsb (String.eqb k) (keys m).
End Defs.
Arguments t : clear implicits.
End JsMap.

(** ** Merge by identity key *)

(** Records that carry the identity key [_id]. *)
Class Keyed (T : Type) := keyOf : T -> string.

Section Merge.
Context {T : Type} `{Keyed T}.

(** [for (const v of xs) map.set(v._id, v)] *)
Definition setAll (xs : list T) (m : JsMap.t T) : JsMap.t T :=
  fold_left (fun acc v => JsMap.set (keyOf v) v acc) xs m.

(** The append branch of the [setItems] updater of Home, Threads and
    SuggestedVideos:
<<
    const map = new Map<string, T>();
    for (const v of prev) map.set(v._id, v);
    for (const v of docs) map.set(v._id, v);
    return Array.from(map.values());
>> *)
Definition mergeById (prev docs : list T) : list T :=
  JsMap.values (setAll docs (setAll prev JsMap.empty)).

(** The last element of [xs] that carries key [k]. *)
Definition lastWithKey (k : string) (xs : list T) : option T :=
  find (fun x => String.eqb k (keyOf x)) (rev xs).

(** The elements of [docs] whose key is already in [prev]. *)
Definition collisions (prev docs : list T) : list T :=
  filter (fun x => existsb (String.eqb (keyOf x)) (map keyOf prev)) docs.

(** The entry under which [map.set(v._id, v)] files [v]. *)
Definition entry (v : T) : string * T := (keyOf v, v).

(** Every value sits under its own [_id]. *)
Definition wellKeyed (m : JsMap.t T) : Prop :=
  Forall (fun kv => fst kv = keyOf (snd kv)) m.

(** What the loop over [xs] leaves under key [k], given what was
    there before. *)
Definition latest (k : string) (xs : list T) (before : option T)
  : option T :=
  fold_left (fun acc x => if String.eqb k (keyOf x) then Some x else acc)
            xs before.
End Merge.

(** ** Strings and errors *)

Definition lowerChar (c : ascii) : ascii :=
  let n := nat_of_ascii c in
  if (65 <=? n)%nat && (n <=? 90)%nat then ascii_of_nat (n + 32) else c.

(** [s.toLowerCase()], on the ASCII letters. *)
Fixpoint toLowerCase (s : string) : string :=
  match s with
  | EmptyString => EmptyString
  | String c s' => String (lowerChar c) (toLowerCase s')
  end.

(** [hay.includes(needle)] *)
Fixpoint includes (hay needle : string) : bool :=
  String.prefix needle hay
  || match hay with
     | EmptyString => false
     | String _ hay' => includes hay' needle
     end.

(** [s || d] on an optional string: the empty string is falsy. *)
Definition orElse (s : option string) (d : string) : string :=
  match s with
  | Some x => if String.eqb x "" then d else x
  | None => d
  end.

(** What [err?.response?.data] holds. *)
Inductive ErrorData :=
| HtmlPage (html : string)
| JsonError (message error : option string)
| NoData.

(** An axios rejection, as the [showError] helpers read it. *)
Record ApiError := {
  status : option Z;      (* err?.response?.status *)
  data : ErrorData;       (* err?.response?.data *)
  message : option string (* err?.message *)
}.

(** How an awaited request settles. *)
Inductive Outcome (A : Type) :=
| Resolved (res : A)
| Rejected (err : ApiError).
Arguments Resolved {A} res.
Arguments Rejected {A} err.

(** [extractMessageFromHtml] of src/utils picks the message out of an
    HTML error page with regular expressions; the views only pass its
    result on to the toast layer. *)
Class HtmlErrorPages := extractMessageFromHtml : string -> string.

(** ** Untyped response payloads *)

Module Json.
Inductive value :=
| Undefined
| Null
| Bool (b : bool)
| Num (z : Z)
| Str (s : string)
| Arr (xs : list value)
| Obj (fields : list (string * value)).

(** Evaluation either completes with a value or throws. *)
Inductive Completion (A : Type) :=
| Normal (a : A)
| Throw (err : string).
Arguments Normal {A} a.
Arguments Throw {A} err.

Definition bind {A B} (c : Completion A) (k : A -> Completion B)
  : Completion B :=
  match c with
  | Normal a => k a
  | Throw err => Throw err
  end.

Fixpoint field (p : string) (fs : list (string * value)) : value :=
  match fs with
  | [] => Undefined
  | (k, v) :: fs' => if String.eqb p k then v else field p fs'
  end.

(** [v.p] for the property names [data], [message] and [docs]: reading
    them off [undefined] or [null] is a TypeError; primitives and arrays
    do not have them. *)
Definition member (v : value) (p : string) : Completion value :=
  match v with
  | Undefined | Null =>
      Throw "TypeError: Cannot read properties of undefined"
  | Obj fs => Normal (field p fs)
  | _ => Normal Undefined
  end.

(** [v?.p] *)
Definition optMember (v : value) (p : string) : value :=
  match v with
  | Obj fs => field p fs
  | _ => Undefined
  end.

(** [a ?? b] *)
Definition nullish (a b : value) : value :=
  match a with
  | Undefined | Null => b
  | _ => a
  end.

Definition truthy (v : value) : bool :=
  match v with
  | Undefined | Null => false
  | Bool b => b
  | Num z => negb (Z.eqb z 0)
  | Str s => negb (String.eqb s "")
  | Arr _ | Obj _ => true
  end.

(** [a || b] *)
Definition or (a b : value) : value := if truthy a then a else b.

(** [Array.isArray(v)] *)
Definition isArray (v : value) : bool :=
  match v with
  | Arr _ => true
  | _ => false
  end.

Definition elements (v : value) : list value :=
  match v with
  | Arr xs => xs
  | _ => []
  end.

Declare Scope js_scope.
Delimit Scope js_scope with js.
Notation "v ?. p" := (optMember v p)
  (at level 20, left associativity) : js_scope.
Notation "a ?? b" := (nullish a b)
  (at level 45, left associativity) : js_scope.
Notation "a ||| b" := (or a b)
  (at level 50, left associativity) : js_scope.
Notation "x <- c ;; k" := (bind c (fun x => k))
  (at level 61, c at next level, right associativity) : js_scope.

Local Open Scope js_scope.

(** Watch.tsx, the unwrapping of the playlist list:
<<
const base = payload?.data ?? payload?.message ?? payload;
const docs = base?.docs || base?.data?.docs || base?.data?.data?.docs
             || base?.data || base;
if (Array.isArray(docs)) return docs;
if (Array.isArray(docs?.docs)) return docs.docs;
return [];
>> *)
Definition extractPlaylists (payload : value) : Completion (list value) :=
  let base := payload ?. "data" ?? payload ?. "message" ?? payload in
  let docs :=
    base ?. "docs"
    ||| base ?. "data" ?. "docs"
    ||| base ?. "data" ?. "data" ?. "docs"
    ||| base ?. "data"
    ||| base in
  if isArray docs then Normal (elements docs)
  else if isArray (docs ?. "docs") then
    d <- member docs "docs" ;; Normal (elements d)
  else Normal [].

(** Home.tsx, the guard on the fetched page:
<<
const data = apiRes?.data;
const docs = Array.isArray(data?.docs) ? data.docs : [];
>> *)
Definition homeDocs (apiRes : value) : Completion (list value) :=
  let data := apiRes ?. "data" in
  if isArray (data ?. "docs") then
    d <- member data "docs" ;; Normal (elements d)
  else Normal [].

(** Following a path of property names with [?.]. *)
Definition follow (v : value) (path : list string) : value :=
  fold_left optMember path v.

(** The places in which [extractPlaylists] looks for the array: under
    [data], under [message] or at the payload itself; from there at
    [docs], [data.docs], [data.data.docs], [data] or the value itself;
    and last one more [docs] below. *)
Definition envelopeShapes : list (list string) :=
  let bases := [["data"]; ["message"]; []] in
  let inner := [["docs"]; ["data"; "docs"]; ["data"; "data"; "docs"];
                ["data"]; []] in
  let tails := [[]; ["docs"]] in
  flat_map (fun b =>
    flat_map (fun i => map (fun t => (b ++ i ++ t)%list) tails) inner) bases.

(** No array at any of the places looked at. *)
Definition noArrayLocated (payload : value) : Prop :=
  forall path, In path envelopeShapes ->
    isArray (follow payload path) = false.
End Json.

(** ** The views

    A handler reads the state cells of the render that created it (the
    closure [c : State]); a setter acts on the pending state [state e],
    which the next render shows; a ref ([useRef]) is read and written in
    place.  Each [async] function is split at its [await]: [_start] runs
    synchronously and records the request it issues, [_settle] runs when
    the promise resolves or rejects. *)

Module OwnerUser.
Record t := {
  _id : string;
  username : string;
  fullname : string;
  avatar : option string
}.
End OwnerUser.

(** *** Home *)

Module Home.
Definition LIMIT : Z := 12.

Record ApiVideo := {
  _id : string;
  videoFile : string;
  thumbnail : string;
  title : string;
  description : string;
  duration : Z;
  views : string;
  isPublished : bool;
  owner : list OwnerUser.t;
  createdAt : string;
  updatedAt : string;
  likesCount : Z;
  commentCounts : Z
}.

#[global] Instance ApiVideo_Keyed : Keyed ApiVideo := _id.

(** The fields of [apiRes?.data] that [fetchPage] reads. *)
Module Res.
Record data := {
  docs : option (list ApiVideo); (* [None]: not an array *)
  page : option Z;               (* [None]: null or undefined *)
  hasNextPage : option bool
}.
End Res.

(** [None]: [apiRes?.data] is undefined. *)
Definition ApiResponse := option Res.data.

Record State := {
  items : list ApiVideo;
  page : Z;
  hasNextPage : bool;
  loadingFirst : bool;
  loadingMore : bool
}.

Definition initial : State :=
  {| items := []; page := 0; hasNextPage := true;
     loadingFirst := true; loadingMore := false |}.

(** A call of [getAllVideos]. *)
Record Request := { req_page : Z; req_limit : Z }.

Record Env := {
  state : State;
  lockRef : bool;
  requests : list Request;
  toasts : list string
}.

Definition update (f : State -> State) (e : Env) : Env :=
  {| state := f (state e); lockRef := lockRef e;
     requests := requests e; toasts := toasts e |}.

Definition setItems (f : list ApiVideo -> list ApiVideo) : Env -> Env :=
  update (fun s =>
    {| items := f (items s); page := page s; hasNextPage := hasNextPage s;
       loadingFirst := loadingFirst s; loadingMore := loadingMore s |}).

Definition setPage (p : Z) : Env -> Env :=
  update (fun s =>
    {| items := items s; page := p; hasNextPage := hasNextPage s;
       loadingFirst := loadingFirst s; loadingMore := loadingMore s |}).

Definition setHasNextPage (b : bool) : Env -> Env :=
  update (fun s =>
    {| items := items s; page := page s; hasNextPage := b;
       loadingFirst := loadingFirst s; loadingMore := loadingMore s |}).

Definition setLoadingFirst (b : bool) : Env -> Env :=
  update (fun s =>
    {| items := items s; page := page s; hasNextPage := hasNextPage s;
       loadingFirst := b; loadingMore := loadingMore s |}).

Definition setLoadingMore (b : bool) : Env -> Env :=
  update (fun s =>
    {| items := items s; page := page s; hasNextPage := hasNextPage s;
       loadingFirst := loadingFirst s; loadingMore := b |}).

Definition setLockRef (b : bool) (e : Env) : Env :=
  {| state := state e; lockRef := b;
     requests := requests e; toasts := toasts e |}.

Definition getAllVideos (r : Request) (e : Env) : Env :=
  {| state := state e; lockRef := lockRef e;
     requests := requests e ++ [r]; toasts := toasts e |}.

Definition toast_error (msg : string) (e : Env) : Env :=
  {| state := state e; lockRef := lockRef e;
     requests := requests e; toasts := toasts e ++ [msg] |}.

Definition showError `{HtmlErrorPages} (err : ApiError) : Env -> Env :=
  toast_error
    match data err with
    | HtmlPage html => extractMessageFromHtml html
    | _ => orElse (message err) "Something went wrong. Please try again."
    end.

(** What [fetchPage] keeps across its [await]. *)
Record Pending := { targetPage : Z; append : bool }.

Definition fetchPage_start (targetPage : Z) (append : bool) (e : Env)
  : Env * option Pending :=
  if lockRef e then (e, None)
  else
    let e := setLockRef true e in
    let e := if negb append then setLoadingFirst true e else e in
    let e := if append then setLoadingMore true e else e in
    (getAllVideos {| req_page := targetPage; req_limit := LIMIT |} e,
     Some {| targetPage := targetPage; append := append |}).

Definition fetchPage_settle `{HtmlErrorPages}
  (p : Pending) (o : Outcome ApiResponse) (e : Env) : Env :=
  let e :=
    match o with
    | Resolved data =>
        let docs :=
          match data with
          | Some d => match Res.docs d with Some xs => xs | None => [] end
          | None => []
          end in
        let e :=
          setPage match data with
                  | Some d =>
                      match Res.page d with
                      | Some n => n
                      | None => targetPage p
                      end
                  | None => targetPage p
                  end e in
        let e :=
          setHasNextPage match data with
                         | Some d =>
                             match Res.hasNextPage d with
                             | Some b => b
                             | None => false
                             end
                         | None => false
                         end e in
        setItems (fun prev =>
                    if negb (append p) then docs else mergeById prev docs) e
    | Rejected err => showError err e
    end in
  let e := if negb (append p) then setLoadingFirst false e else e in
  let e := if append p then setLoadingMore false e else e in
  setLockRef false e.

(** The [IntersectionObserver] callback: the view's "load next". *)
Definition onIntersect (c : State) (isIntersecting : bool) (e : Env)
  : Env * option Pending :=
  if negb isIntersecting then (e, None)
  else if negb (hasNextPage c) then (e, None)
  else if loadingFirst c || loadingMore c then (e, None)
  else if lockRef e then (e, None)
  else fetchPage_start (page c + 1) true e.
End Home.

(** *** SuggestedVideos *)

Module SuggestedVideos.
Record SuggestedVideo := {
  _id : string;
  title : string;
  thumbnail : string;
  tags : list string;
  owner : list OwnerUser.t;
  createdAt : string;
  views : string;
  matchCount : option Z
}.

#[global] Instance SuggestedVideo_Keyed : Keyed SuggestedVideo := _id.

(** The fields of [payload.data] that [fetchPage] reads;
    [None] stands for null or undefined. *)
Module Res.
Record data := {
  docs : option (list SuggestedVideo);
  totalPages : option Z
}.
End Res.

Definition ApiResponse := option Res.data.

Record Props := { videoId : string; limit : Z }.

Record State := {
  items : list SuggestedVideo;
  page : Z;
  totalPages : Z;
  loading : bool;
  loadingMore : bool
}.

Definition initial : State :=
  {| items := []; page := 1; totalPages := 1;
     loading := false; loadingMore := false |}.

Definition hasMore (s : State) : bool := page s <? totalPages s.

(** A call of [getSuggestedVideos]. *)
Record Request := { req_videoId : string; req_page : Z; req_limit : Z }.

Record Env := {
  state : State;
  requests : list Request;
  toasts : list string
}.

Definition update (f : State -> State) (e : Env) : Env :=
  {| state := f (state e); requests := requests e; toasts := toasts e |}.

Definition setItems (f : list SuggestedVideo -> list SuggestedVideo)
  : Env -> Env :=
  update (fun s =>
    {| items := f (items s); page := page s; totalPages := totalPages s;
       loading := loading s; loadingMore := loadingMore s |}).

Definition setPage (p : Z) : Env -> Env :=
  update (fun s =>
    {| items := items s; page := p; totalPages := totalPages s;
       loading := loading s; loadingMore := loadingMore s |}).

Definition setTotalPages (tp : Z) : Env -> Env :=
  update (fun s =>
    {| items := items s; page := page s; totalPages := tp;
       loading := loading s; loadingMore := loadingMore s |}).

Definition setLoading (b : bool) : Env -> Env :=
  update (fun s =>
    {| items := items s; page := page s; totalPages := totalPages s;
       loading := b; loadingMore := loadingMore s |}).

Definition setLoadingMore (b : bool) : Env -> Env :=
  update (fun s =>
    {| items := items s; page := page s; totalPages := totalPages s;
       loading := loading s; loadingMore := b |}).

Definition getSuggestedVideos (r : Request) (e : Env) : Env :=
  {| state := state e; requests := requests e ++ [r];
     toasts := toasts e |}.

Definition toast_error (msg : string) (e : Env) : Env :=
  {| state := state e; requests := requests e;
     toasts := toasts e ++ [msg] |}.

Definition showError `{HtmlErrorPages} (err : ApiError) : Env -> Env :=
  toast_error
    match data err with
    | HtmlPage html => extractMessageFromHtml html
    | _ => orElse (message err) "Failed to load suggestions"
    end.

(** The effect on [videoId]: "Reset when videoId changes". *)
Definition reset (e : Env) : Env :=
  setTotalPages 1 (setPage 1 (setItems (fun _ => []) e)).

(** [fetchPage] up to its [await]; the result tells whether a request
    is now in flight. *)
Definition fetchPage_start (pr : Props) (p : Z) (e : Env) : Env * bool :=
  if String.eqb (videoId pr) "" then (e, false)
  else
    let e := if p =? 1 then setLoading true e else setLoadingMore true e in
    (getSuggestedVideos
       {| req_videoId := videoId pr; req_page := p; req_limit := limit pr |}
       e, true).

Definition fetchPage_settle `{HtmlErrorPages}
  (o : Outcome ApiResponse) (e : Env) : Env :=
  let e :=
    match o with
    | Resolved data =>
        let docs :=
          match data with
          | Some d => match Res.docs d with Some xs => xs | None => [] end
          | None => []
          end in
        let tp :=
          match data with
          | Some d => match Res.totalPages d with Some n => n | None => 1 end
          | None => 1
          end in
        let e := setTotalPages tp e in
        setItems (fun prev => mergeById prev docs) e
    | Rejected err => showError err e
    end in
  setLoadingMore false (setLoading false e).

Definition onLoadMore (pr : Props) (c : State) (e : Env) : Env * bool :=
  if loadingMore c || loading c || negb (hasMore c) then (e, false)
  else
    let next := page c + 1 in
    let e := setPage next e in
    fetchPage_start pr next e.
End SuggestedVideos.

(** *** Threads *)

Module Threads.
Definition limit : Z := 5.

Record Owner := {
  owner_id : string;
  username : option string;
  fullname : option string;
  email : option string;
  avatar : option string
}.

Record PostDoc := {
  _id : string;
  content : string;
  owner : option Owner;
  likesCount : option Z;
  commentCounts : option Z;
  createdAt : option string;
  updatedAt : option string
}.

#[global] Instance PostDoc_Keyed : Keyed PostDoc := _id.

(** The fields of [payload?.data] that [fetchPage] reads. *)
Module Res.
Record data := {
  docs : option (list PostDoc); (* [None]: not an array *)
  page : option Z;
  totalPages : option Z
}.
End Res.

Definition ApiResponse := option Res.data.

(** The cells that paging touches; the search box [q] and the
    [refreshing] flag only feed the rendering. *)
Record State := {
  rows : list PostDoc;
  page : Z;
  totalPages : Z;
  loadingFirst : bool;
  loadingMore : bool;
  error : option string
}.

Definition initial : State :=
  {| rows := []; page := 1; totalPages := 1;
     loadingFirst := true; loadingMore := false; error := None |}.

Definition hasMore (s : State) : bool := page s <? totalPages s.

(** A call of [getPosts]. *)
Record Request := {
  req_page : Z;
  req_limit : Z;
  req_sortBy : string;
  req_sortType : string
}.

Record Env := {
  state : State;
  loadingRef : bool;
  requests : list Request;
  toasts : list string
}.

Definition update (f : State -> State) (e : Env) : Env :=
  {| state := f (state e); loadingRef := loadingRef e;
     requests := requests e; toasts := toasts e |}.

Definition setRows (f : list PostDoc -> list PostDoc) : Env -> Env :=
  update (fun s =>
    {| rows := f (rows s); page := page s; totalPages := totalPages s;
       loadingFirst := loadingFirst s; loadingMore := loadingMore s;
       error := error s |}).

Definition setPage (p : Z) : Env -> Env :=
  update (fun s =>
    {| rows := rows s; page := p; totalPages := totalPages s;
       loadingFirst := loadingFirst s; loadingMore := loadingMore s;
       error := error s |}).

Definition setTotalPages (tp : Z) : Env -> Env :=
  update (fun s =>
    {| rows := rows s; page := page s; totalPages := tp;
       loadingFirst := loadingFirst s; loadingMore := loadingMore s;
       error := error s |}).

Definition setLoadingFirst (b : bool) : Env -> Env :=
  update (fun s =>
    {| rows := rows s; page := page s; totalPages := totalPages s;
       loadingFirst := b; loadingMore := loadingMore s;
       error := error s |}).

Definition setLoadingMore (b : bool) : Env -> Env :=
  update (fun s =>
    {| rows := rows s; page := page s; totalPages := totalPages s;
       loadingFirst := loadingFirst s; loadingMore := b;
       error := error s |}).

Definition setError (msg : option string) : Env -> Env :=
  update (fun s =>
    {| rows := rows s; page := page s; totalPages := totalPages s;
       loadingFirst := loadingFirst s; loadingMore := loadingMore s;
       error := msg |}).

Definition setLoadingRef (b : bool) (e : Env) : Env :=
  {| state := state e; loadingRef := b;
     requests := requests e; toasts := toasts e |}.

Definition getPosts (r : Request) (e : Env) : Env :=
  {| state := state e; loadingRef := loadingRef e;
     requests := requests e ++ [r]; toasts := toasts e |}.

Definition toast_error (msg : string) (e : Env) : Env :=
  {| state := state e; loadingRef := loadingRef e;
     requests := requests e; toasts := toasts e ++ [msg] |}.

Definition showError `{HtmlErrorPages} (err : ApiError) (e : Env) : Env :=
  let fallback := orElse (message err) "Failed to load posts." in
  let msg :=
    match data err with
    | HtmlPage html => extractMessageFromHtml html
    | JsonError m _ => orElse m fallback
    | NoData => fallback
    end in
  toast_error msg (setError (Some msg) e).

Record Pending := { targetPage : Z; append : bool }.

Definition fetchPage_start (targetPage : Z) (append : bool) (e : Env)
  : Env * option Pending :=
  (* hard guard to prevent double calling *)
  if loadingRef e then (e, None)
  else
    let e := setLoadingRef true e in
    let e := setError None e in
    let e := if negb append then setLoadingFirst true e else e in
    let e := if append then setLoadingMore true e else e in
    (getPosts {| req_page := targetPage; req_limit := limit;
                 req_sortBy := "createdAt"; req_sortType := "desc" |} e,
     Some {| targetPage := targetPage; append := append |}).

Definition fetchPage_settle `{HtmlErrorPages}
  (p : Pending) (o : Outcome ApiResponse) (e : Env) : Env :=
  let e :=
    match o with
    | Resolved data =>
        let docs :=
          match data with
          | Some d => match Res.docs d with Some xs => xs | None => [] end
          | None => []
          end in
        let e :=
          setPage match data with
                  | Some d =>
                      match Res.page d with
                      | Some n => n
                      | None => targetPage p
                      end
                  | None => targetPage p
                  end e in
        let e :=
          setTotalPages match data with
                        | Some d =>
                            match Res.totalPages d with
                            | Some n => n
                            | None => 1
                            end
                        | None => 1
                        end e in
        setRows (fun prev =>
                   if negb (append p) then docs else mergeById prev docs) e
    | Rejected err => showError err e
    end in
  let e := if negb (append p) then setLoadingFirst false e else e in
  let e := if append p then setLoadingMore false e else e in
  setLoadingRef false e.

(** The [IntersectionObserver] callback. *)
Definition onIntersect (c : State) (isIntersecting : bool) (e : Env)
  : Env * option Pending :=
  if negb isIntersecting then (e, None)
  else if hasMore c && negb (loadingRef e)
          && negb (loadingMore c) && negb (loadingFirst c)
  then fetchPage_start (page c + 1) true e
  else (e, None).
End Threads.

(** *** CommentsSection *)

Module CommentsSection.
Record CommentUser := {
  user_id : string;
  username : string;
  fullname : option string;
  avatar : option string
}.

Record CommentItem := {
  _id : string;
  text : string;
  video : string;
  user : CommentUser;
  createdAt : string;
  updatedAt : string
}.

(** The fields of [res.data.data] that [fetchPage] reads;
    [None] stands for null or undefined. *)
Module Res.
Record data := {
  docs : option (list CommentItem);
  totalDocs : option Z;
  hasNextPage : option bool
}.
End Res.

Record Props := { videoId : string; pageSize : Z }.

Inductive Mode := replace | append.

(** The cells of the pager; the compose and edit boxes are apart. *)
Record State := {
  items : list CommentItem;
  loading : bool;
  page : Z;
  hasNextPage : bool;
  totalDocs : Z
}.

Definition initial : State :=
  {| items := []; loading := true; page := 1;
     hasNextPage := false; totalDocs := 0 |}.

(** A call of [getVideoCommentsApi]. *)
Record Request := { req_videoId : string; req_page : Z; req_limit : Z }.

Record Env := {
  state : State;
  requests : list Request;
  toasts : list string
}.

Definition update (f : State -> State) (e : Env) : Env :=
  {| state := f (state e); requests := requests e; toasts := toasts e |}.

Definition setItems (f : list CommentItem -> list CommentItem)
  : Env -> Env :=
  update (fun s =>
    {| items := f (items s); loading := loading s; page := page s;
       hasNextPage := hasNextPage s; totalDocs := totalDocs s |}).

Definition setLoading (b : bool) : Env -> Env :=
  update (fun s =>
    {| items := items s; loading := b; page := page s;
       hasNextPage := hasNextPage s; totalDocs := totalDocs s |}).

Definition setPage (p : Z) : Env -> Env :=
  update (fun s =>
    {| items := items s; loading := loading s; page := p;
       hasNextPage := hasNextPage s; totalDocs := totalDocs s |}).

Definition setHasNextPage (b : bool) : Env -> Env :=
  update (fun s =>
    {| items := items s; loading := loading s; page := page s;
       hasNextPage := b; totalDocs := totalDocs s |}).

Definition setTotalDocs (n : Z) : Env -> Env :=
  update (fun s =>
    {| items := items s; loading := loading s; page := page s;
       hasNextPage := hasNextPage s; totalDocs := n |}).

Definition getVideoCommentsApi (r : Request) (e : Env) : Env :=
  {| state := state e; requests := requests e ++ [r];
     toasts := toasts e |}.

Definition toast_error (msg : string) (e : Env) : Env :=
  {| state := state e; requests := requests e;
     toasts := toasts e ++ [msg] |}.

Definition orEmpty (docs : option (list CommentItem)) : list CommentItem :=
  match docs with
  | Some xs => xs
  | None => []
  end.

Definition fetchPage_start (pr : Props) (p : Z) (e : Env) : Env :=
  getVideoCommentsApi
    {| req_videoId := videoId pr; req_page := p; req_limit := pageSize pr |}
    (setLoading true e).

Definition fetchPage_settle
  (p : Z) (mode : Mode) (o : Outcome Res.data) (e : Env) : Env :=
  let e :=
    match o with
    | Resolved d =>
        let e :=
          setTotalDocs
            match Res.totalDocs d with Some n => n | None => 0 end e in
        let e :=
          setHasNextPage
            match Res.hasNextPage d with Some b => b | None => false end
            e in
        let e :=
          match mode with
          | replace => setItems (fun _ => orEmpty (Res.docs d)) e
          | append =>
              setItems (fun prev => (prev ++ orEmpty (Res.docs d))%list) e
          end in
        setPage p e
    | Rejected err =>
        let fallback := orElse (message err) "Failed to load comments" in
        toast_error
          match data err with
          | JsonError m _ => orElse m fallback
          | _ => fallback
          end e
    end in
  setLoading false e.

(** The effect on [videoId]. *)
Definition reset (pr : Props) (e : Env) : Env :=
  if String.eqb (videoId pr) "" then e
  else
    let e := setItems (fun _ => []) e in
    let e := setPage 1 e in
    let e := setHasNextPage false e in
    let e := setTotalDocs 0 e in
    fetchPage_start pr 1 e.

(** The "Load more" button, shown while [!loading && hasNextPage]. *)
Definition onLoadMore (pr : Props) (c : State) (e : Env) : Env :=
  fetchPage_start pr (page c + 1) e.
End CommentsSection.

(** *** Watch: the optimistic toggles *)

Module Watch.
Module ApiVideo.
Record t := {
  _id : string;
  videoFile : string;
  thumbnail : string;
  title : string;
  description : string;
  duration : Z;
  views : string;
  isPublished : bool;
  owner : list OwnerUser.t;
  createdAt : string;
  updatedAt : string;
  likesCount : Z;
  commentCounts : Z;
  isLiked : option bool;
  isSubscribed : option bool
}.
End ApiVideo.

(** An entry of [videos?: any[]]: "can be ids or docs depending on
    your backend". *)
Inductive VideoRef :=
| VideoId (id : string)
| VideoDoc (doc_id : option string)
| VideoNull.

Module ApiPlaylist.
Record t := {
  _id : string;
  name : string;
  description : option string;
  videos : option (list VideoRef);
  createdAt : option string;
  updatedAt : option string
}.
End ApiPlaylist.

(** [String(v?._id || v)] *)
Definition videoRefId (v : VideoRef) : string :=
  match v with
  | VideoId id => id
  | VideoDoc (Some id) => if String.eqb id "" then "[object Object]" else id
  | VideoDoc None => "[object Object]"
  | VideoNull => "null"
  end.

Definition getIdsFromPlaylistVideos (videos : option (list VideoRef))
  : list string :=
  match videos with
  | None => []
  | Some vs =>
      filter (fun x => negb (String.eqb x "")
                       && negb (String.eqb x "undefined")
                       && negb (String.eqb x "null"))
             (map videoRefId vs)
  end.

(** The cells that the three toggles read and write. *)
Record State := {
  video : option ApiVideo.t;
  liked : bool;
  likesCount : Z;
  liking : bool;
  subscribed : bool;
  subscribing : bool;
  playlists : list ApiPlaylist.t
}.

Inductive Call :=
| toggleVideoLike (videoId : string)
| toggleSubscription (channelId : string)
| addVideoToPlaylist (playlistId videoId : string)
| removeVideoFromPlaylist (playlistId videoId : string).

Record Env := {
  state : State;
  calls : list Call;
  toasts : list string;
  localToken : option string;   (* localStorage "accessToken" *)
  sessionToken : option string; (* sessionStorage "accessToken" *)
  navigations : list string
}.

Definition update (f : State -> State) (e : Env) : Env :=
  {| state := f (state e); calls := calls e; toasts := toasts e;
     localToken := localToken e; sessionToken := sessionToken e;
     navigations := navigations e |}.

Definition setLiked (b : bool) : Env -> Env :=
  update (fun s =>
    {| video := video s; liked := b; likesCount := likesCount s;
       liking := liking s; subscribed := subscribed s;
       subscribing := subscribing s; playlists := playlists s |}).

Definition setLikesCount (n : Z) : Env -> Env :=
  update (fun s =>
    {| video := video s; liked := liked s; likesCount := n;
       liking := liking s; subscribed := subscribed s;
       subscribing := subscribing s; playlists := playlists s |}).

Definition setLiking (b : bool) : Env -> Env :=
  update (fun s =>
    {| video := video s; liked := liked s; likesCount := likesCount s;
       liking := b; subscribed := subscribed s;
       subscribing := subscribing s; playlists := playlists s |}).

Definition setSubscribed (b : bool) : Env -> Env :=
  update (fun s =>
    {| video := video s; liked := liked s; likesCount := likesCount s;
       liking := liking s; subscribed := b;
       subscribing := subscribing s; playlists := playlists s |}).

Definition setSubscribing (b : bool) : Env -> Env :=
  update (fun s =>
    {| video := video s; liked := liked s; likesCount := likesCount s;
       liking := liking s; subscribed := subscribed s;
       subscribing := b; playlists := playlists s |}).

Definition setPlaylists
  (f : list ApiPlaylist.t -> list ApiPlaylist.t) : Env -> Env :=
  update (fun s =>
    {| video := video s; liked := liked s; likesCount := likesCount s;
       liking := liking s; subscribed := subscribed s;
       subscribing := subscribing s; playlists := f (playlists s) |}).

Definition call (c : Call) (e : Env) : Env :=
  {| state := state e; calls := calls e ++ [c]; toasts := toasts e;
     localToken := localToken e; sessionToken := sessionToken e;
     navigations := navigations e |}.

Definition toast_error (msg : string) (e : Env) : Env :=
  {| state := state e; calls := calls e; toasts := toasts e ++ [msg];
     localToken := localToken e; sessionToken := sessionToken e;
     navigations := navigations e |}.

(** The two [removeItem("accessToken")] and [navigate("/login")]. *)
Definition logout (e : Env) : Env :=
  {| state := state e; calls := calls e; toasts := toasts e;
     localToken := None; sessionToken := None;
     navigations := navigations e ++ ["/login"] |}.

Definition showError `{HtmlErrorPages} (err : ApiError) (e : Env) : Env :=
  let serverMessage :=
    match data err with
    | HtmlPage html => extractMessageFromHtml html
    | JsonError m er => orElse m (orElse er "")
    | NoData => ""
    end in
  let msg :=
    toLowerCase (orElse (Some serverMessage) (orElse (message err) "")) in
  let isJwtExpired := includes msg "jwt expired" in
  let isUnauthorized :=
    match status err with Some n => n =? 401 | None => false end in
  if isJwtExpired || isUnauthorized then
    logout (toast_error "You need to login" e)
  else
    toast_error
      (orElse (Some serverMessage)
         (orElse (message err) "Something went wrong. Please try again."))
      e.

(** [video?._id], when truthy. *)
Definition videoId (c : State) : option string :=
  match video c with
  | Some v =>
      if String.eqb (ApiVideo._id v) "" then None
      else Some (ApiVideo._id v)
  | None => None
  end.

(** [video?.owner?.[0]?._id], when truthy. *)
Definition channelId (c : State) : option string :=
  match video c with
  | Some v =>
      match ApiVideo.owner v with
      | o :: _ =>
          if String.eqb (OwnerUser._id o) "" then None
          else Some (OwnerUser._id o)
      | [] => None
      end
  | None => None
  end.

(** **** Like *)

Record LikePending := { prevLiked : bool; prevCount : Z; nextLiked : bool }.

Definition handleToggleLike_start (c : State) (e : Env)
  : Env * option LikePending :=
  match videoId c with
  | None => (e, None)
  | Some vid =>
      if liking c then (e, None)
      else
        let prevLiked := liked c in
        let prevCount := likesCount c in
        let nextLiked := negb prevLiked in
        let nextCount :=
          Z.max 0 (prevCount + (if nextLiked then 1 else -1)) in
        let e := setLiked nextLiked e in
        let e := setLikesCount nextCount e in
        let e := setLiking true e in
        (call (toggleVideoLike vid) e,
         Some {| prevLiked := prevLiked; prevCount := prevCount;
                 nextLiked := nextLiked |})
  end.

(** The response carries [res?.data?.message], if any. *)
Definition handleToggleLike_settle `{HtmlErrorPages}
  (p : LikePending) (o : Outcome (option string)) (e : Env) : Env :=
  let e :=
    match o with
    | Resolved m =>
        let msg := orElse m "" in
        let lower := toLowerCase msg in
        let serverLiked :=
          if includes lower "created" then true
          else if includes lower "deleted" then false
          else nextLiked p in
        if negb (Bool.eqb serverLiked (nextLiked p)) then
          let e := setLiked serverLiked e in
          let reconciled :=
            Z.max 0 (prevCount p + (if serverLiked then 1 else 0)
                     - (if prevLiked p then 1 else 0)) in
          setLikesCount reconciled e
        else e
    | Rejected err =>
        showError err (setLikesCount (prevCount p) (setLiked (prevLiked p) e))
    end in
  setLiking false e.

(** **** Subscribe *)

Record SubPending := { prev : bool; next : bool }.

Definition handleToggleSubscribe_start (c : State) (e : Env)
  : Env * option SubPending :=
  match channelId c with
  | None => (e, None)
  | Some ch =>
      if subscribing c then (e, None)
      else
        let prev := subscribed c in
        let next := negb prev in
        let e := setSubscribed next e in
        let e := setSubscribing true e in
        (call (toggleSubscription ch) e,
         Some {| prev := prev; next := next |})
  end.

Definition handleToggleSubscribe_settle `{HtmlErrorPages}
  (p : SubPending) (o : Outcome (option string)) (e : Env) : Env :=
  let e :=
    match o with
    | Resolved m =>
        let msg := orElse m "" in
        let lower := toLowerCase msg in
        let serverSubscribed :=
          if includes lower "unsub" then false
          else if includes lower "subscribed" then true
          else next p in
        setSubscribed serverSubscribed e
    | Rejected err => showError err (setSubscribed (prev p) e)
    end in
  setSubscribing false e.

(** **** Playlist membership *)

Definition toggleVideoInPlaylist_start
  (c : State) (pl : ApiPlaylist.t) (e : Env)
  : Env * option (list ApiPlaylist.t) :=
  match videoId c with
  | None => (e, None)
  | Some vid =>
      let ids := getIdsFromPlaylistVideos (ApiPlaylist.videos pl) in
      let already := existsb (String.eqb vid) ids in
      (* optimistic update *)
      let prev := playlists c in
      let e :=
        setPlaylists
          (map (fun x =>
             if negb (String.eqb (ApiPlaylist._id x) (ApiPlaylist._id pl))
             then x
             else
               let currentIds :=
                 getIdsFromPlaylistVideos (ApiPlaylist.videos x) in
               let nextIds :=
                 if already
                 then filter (fun id => negb (String.eqb id vid)) currentIds
                 else vid :: currentIds in
               {| ApiPlaylist._id := ApiPlaylist._id x;
                  ApiPlaylist.name := ApiPlaylist.name x;
                  ApiPlaylist.description := ApiPlaylist.description x;
                  ApiPlaylist.videos := Some (map VideoId nextIds);
                  ApiPlaylist.createdAt := ApiPlaylist.createdAt x;
                  ApiPlaylist.updatedAt := ApiPlaylist.updatedAt x |}))
          e in
      (call (if already
             then removeVideoFromPlaylist (ApiPlaylist._id pl) vid
             else addVideoToPlaylist (ApiPlaylist._id pl) vid) e,
       Some prev)
  end.

Definition toggleVideoInPlaylist_settle `{HtmlErrorPages}
  (prev : list ApiPlaylist.t) (o : Outcome unit) (e : Env) : Env :=
  match o with
  | Resolved _ => e
  | Rejected err => showError err (setPlaylists (fun _ => prev) e) (* revert *)
  end.
End Watch.

(** ** Sample data *)

Module Samples.
(** A video of the Home feed with the given [_id] and title. *)
Definition video (id t : string) : Home.ApiVideo :=
  {| Home._id := id; Home.videoFile := ""; Home.thumbnail := "";
     Home.title := t; Home.description := ""; Home.duration := 0;
     Home.views := "0"; Home.isPublished := true; Home.owner := [];
     Home.createdAt := ""; Home.updatedAt := "";
     Home.likesCount := 0; Home.commentCounts := 0 |}.

(** Two pages of ten videos; the first of page two has the [_id] of
    the last of page one. *)
Definition pageOne : list Home.ApiVideo :=
  map (fun id => video id "page one")
      ["v01"; "v02"; "v03"; "v04"; "v05";
       "v06"; "v07"; "v08"; "v09"; "v10"].

Definition pageTwo : list Home.ApiVideo :=
  map (fun id => video id "page two")
      ["v10"; "v11"; "v12"; "v13"; "v14";
       "v15"; "v16"; "v17"; "v18"; "v19"].

(** A payload with a string where the list should be. *)
Definition malformed : Json.value :=
  Json.Obj [("statusCode", Json.Num 200);
            ("data", Json.Obj [("docs", Json.Str "oops")]);
            ("message", Json.Str "ok")].

Definition networkError : ApiError :=
  {| status := None; data := NoData; message := Some "Network Error" |}.

(** SuggestedVideos after its first page of three. *)
Definition suggestion (id t : string) : SuggestedVideos.SuggestedVideo :=
  {| SuggestedVideos._id := id; SuggestedVideos.title := t;
     SuggestedVideos.thumbnail := ""; SuggestedVideos.tags := [];
     SuggestedVideos.owner := []; SuggestedVideos.createdAt := "";
     SuggestedVideos.views := "0"; SuggestedVideos.matchCount := None |}.

Definition suggestedProps : SuggestedVideos.Props :=
  {| SuggestedVideos.videoId := "vid1"; SuggestedVideos.limit := 12 |}.

Definition suggestedState : SuggestedVideos.State :=
  {| SuggestedVideos.items := [suggestion "s1" "first"];
     SuggestedVideos.page := 1; SuggestedVideos.totalPages := 3;
     SuggestedVideos.loading := false;
     SuggestedVideos.loadingMore := false |}.

Definition suggestedEnv : SuggestedVideos.Env :=
  {| SuggestedVideos.state := suggestedState;
     SuggestedVideos.requests := []; SuggestedVideos.toasts := [] |}.

(** The comment list of a video, two comments loaded. *)
Definition comment (id t : string) : CommentsSection.CommentItem :=
  {| CommentsSection._id := id; CommentsSection.text := t;
     CommentsSection.video := "vid1";
     CommentsSection.user :=
       {| CommentsSection.user_id := "u1";
          CommentsSection.username := "ann";
          CommentsSection.fullname := None;
          CommentsSection.avatar := None |};
     CommentsSection.createdAt := ""; CommentsSection.updatedAt := "" |}.

Definition commentsProps : CommentsSection.Props :=
  {| CommentsSection.videoId := "vid2"; CommentsSection.pageSize := 10 |}.

Definition commentsEnv : CommentsSection.Env :=
  {| CommentsSection.state :=
       {| CommentsSection.items := [comment "c1" "hi"; comment "c2" "ho"];
          CommentsSection.loading := false; CommentsSection.page := 2;
          CommentsSection.hasNextPage := true;
          CommentsSection.totalDocs := 25 |};
     CommentsSection.requests := []; CommentsSection.toasts := [] |}.

(** The Watch page on a video with five likes, not liked, not
    subscribed, with one playlist. *)
Definition watched : Watch.ApiVideo.t :=
  {| Watch.ApiVideo._id := "vid1"; Watch.ApiVideo.videoFile := "";
     Watch.ApiVideo.thumbnail := ""; Watch.ApiVideo.title := "A video";
     Watch.ApiVideo.description := ""; Watch.ApiVideo.duration := 60;
     Watch.ApiVideo.views := "10"; Watch.ApiVideo.isPublished := true;
     Watch.ApiVideo.owner :=
       [{| OwnerUser._id := "ch1"; OwnerUser.username := "ann";
           OwnerUser.fullname := "Ann"; OwnerUser.avatar := None |}];
     Watch.ApiVideo.createdAt := ""; Watch.ApiVideo.updatedAt := "";
     Watch.ApiVideo.likesCount := 5; Watch.ApiVideo.commentCounts := 0;
     Watch.ApiVideo.isLiked := Some false;
     Watch.ApiVideo.isSubscribed := Some false |}.

Definition watchLater : Watch.ApiPlaylist.t :=
  {| Watch.ApiPlaylist._id := "pl1"; Watch.ApiPlaylist.name := "Later";
     Watch.ApiPlaylist.description := None;
     Watch.ApiPlaylist.videos :=
       Some [Watch.VideoDoc (Some "vid9"); Watch.VideoId "vid7"];
     Watch.ApiPlaylist.createdAt := None;
     Watch.ApiPlaylist.updatedAt := None |}.

Definition watchState : Watch.State :=
  {| Watch.video := Some watched; Watch.liked := false;
     Watch.likesCount := 5; Watch.liking := false;
     Watch.subscribed := false; Watch.subscribing := false;
     Watch.playlists := [watchLater] |}.

Definition watchEnv : Watch.Env :=
  {| Watch.state := watchState; Watch.calls := []; Watch.toasts := [];
     Watch.localToken := Some "token"; Watch.sessionToken := None;
     Watch.navigations := [] |}.
End Samples.

(** ** Further code of the cited files *)

From Stdlib Require Import QArith Qround DecimalString.
Close Scope Q_scope.
Open Scope Z_scope.

(** *** Text helpers of Home.tsx *)

Module Format.
(** The interpolation of an integer into a template string. *)
Definition showZ (n : Z) : string := NilZero.string_of_int (Z.to_int n).

Fixpoint repeatChar (n : nat) (c : ascii) : string :=
  match n with
  | O => ""
  | S n' => String c (repeatChar n' c)
  end.

(** [s.padStart(target, fill)] with a filler of one character. *)
Definition padStart (target : nat) (fill : ascii) (s : string) : string :=
  repeatChar (target - String.length s) fill ++ s.

(** Home.tsx, on a finite number of seconds:
<<
const total = Math.max(0, Math.floor(sec || 0));
const h = Math.floor(total / 3600);
const m = Math.floor((total % 3600) / 60);
const s = total % 60;
const mm = String(m).padStart(2, "0");
const ss = String(s).padStart(2, "0");
return h > 0 ? `${h}:${mm}:${ss}` : `${m}:${ss}`;
>> *)
Definition secondsToDuration (sec : Q) : string :=
  let total := Z.max 0 (Qfloor sec) in
  let h := total / 3600 in
  let m := (total mod 3600) / 60 in
  let s := total mod 60 in
  let mm := padStart 2 "0" (showZ m) in
  let ss := padStart 2 "0" (showZ s) in
  if 0 <? h then showZ h ++ ":" ++ mm ++ ":" ++ ss
  else showZ m ++ ":" ++ ss.

(** [n > 1 ? "s" : ""] *)
Definition plural (n : Z) : string := if 1 <? n then "s" else "".

(** [timeAgo] of Home.tsx, Watch.tsx, SuggestedVideos.tsx and
    CommentSection.tsx, given [Date.now()] and
    [new Date(iso).getTime()] in milliseconds; the latter is [None]
    when the date is invalid (NaN), and then every comparison fails. *)
Definition timeAgo (now : Z) (time : option Z) : string :=
  match time with
  | None => "just now"
  | Some t =>
      let diff := now - t in
      let sec := diff / 1000 in
      let min := sec / 60 in
      let hr := min / 60 in
      let day := hr / 24 in
      let mo := day / 30 in
      let yr := day / 365 in
      if 0 <? yr then showZ yr ++ " year" ++ plural yr ++ " ago"
      else if 0 <? mo then showZ mo ++ " month" ++ plural mo ++ " ago"
      else if 0 <? day then showZ day ++ " day" ++ plural day ++ " ago"
      else if 0 <? hr then showZ hr ++ " hour" ++ plural hr ++ " ago"
      else if 0 <? min then showZ min ++ " minute" ++ plural min ++ " ago"
      else "just now"
  end.
End Format.

(** *** Watch.tsx beside the toggles *)

Module WatchPage.
(** [shareText]: the title, cut to 120 characters. *)
Definition shareText (c : Watch.State) : string :=
  let t :=
    orElse (option_map Watch.ApiVideo.title (Watch.video c))
           "Check this video" in
  if (120 <? String.length t)%nat then substring 0 117 t ++ "..." else t.

Definition isVideoInPlaylist (c : Watch.State) (pl : Watch.ApiPlaylist.t)
  : bool :=
  match Watch.videoId c with
  | None => false
  | Some vid =>
      existsb (String.eqb vid)
        (Watch.getIdsFromPlaylistVideos (Watch.ApiPlaylist.videos pl))
  end.

(** The test of the filter in [getIdsFromPlaylistVideos]. *)
Definition idKept (x : string) : bool :=
  negb (String.eqb x "") && negb (String.eqb x "undefined")
  && negb (String.eqb x "null").

(** The watch-history effect and its ref:
<<
const id = video?._id;
if (!id) return;
if (watchHistoryAddedForRef.current === id) return;
watchHistoryAddedForRef.current = id;
addToWatchHistory(id).catch(() => {});
>> *)
Record History := {
  watchHistoryAddedForRef : option string;
  addToWatchHistory : list string (* the calls made, oldest first *)
}.

Definition noHistory : History :=
  {| watchHistoryAddedForRef := None; addToWatchHistory := [] |}.

Definition watchHistoryEffect (c : Watch.State) (h : History) : History :=
  match Watch.videoId c with
  | None => h
  | Some id =>
      match watchHistoryAddedForRef h with
      | Some last =>
          if String.eqb last id then h
          else {| watchHistoryAddedForRef := Some id;
                  addToWatchHistory := addToWatchHistory h ++ [id] |}
      | None =>
          {| watchHistoryAddedForRef := Some id;
             addToWatchHistory := addToWatchHistory h ++ [id] |}
      end
  end.

(** **** The growing limit of the suggestions *)

Definition SUGGEST_BATCH : Z := 12.
Definition SUGGEST_MAX : Z := 120.

Record Suggest := {
  suggestLimit : Z;
  suggestBumping : bool;
  suggestLockRef : bool;
  timeouts : nat (* cooldown timers set and not yet fired *)
}.

Definition suggestInitial : Suggest :=
  {| suggestLimit := SUGGEST_BATCH; suggestBumping := false;
     suggestLockRef := false; timeouts := O |}.

(** "reset suggested limit when the route changes" *)
Definition resetSuggestLimit (s : Suggest) : Suggest :=
  {| suggestLimit := SUGGEST_BATCH; suggestBumping := suggestBumping s;
     suggestLockRef := suggestLockRef s; timeouts := timeouts s |}.

(** The observer callback; [limit] is the [suggestLimit] of the render
    that installed the observer. *)
Definition onSuggestIntersect (limit : Z) (isIntersecting : bool)
  (s : Suggest) : Suggest :=
  if negb isIntersecting then s
  else if suggestLockRef s then s
  else if SUGGEST_MAX <=? limit then s
  else
    {| suggestLimit := Z.min SUGGEST_MAX (suggestLimit s + SUGGEST_BATCH);
       suggestBumping := true;
       suggestLockRef := true;
       timeouts := S (timeouts s) |}.

(** The callback of [window.setTimeout(..., 800)]. *)
Definition onSuggestTimeout (s : Suggest) : Suggest :=
  match timeouts s with
  | O => s
  | S n =>
      {| suggestLimit := suggestLimit s; suggestBumping := false;
         suggestLockRef := false; timeouts := n |}
  end.

Inductive SuggestEvent :=
| RouteChange
| Intersect (limit : Z) (isIntersecting : bool)
| Timeout.

Definition suggestStep (s : Suggest) (ev : SuggestEvent) : Suggest :=
  match ev with
  | RouteChange => resetSuggestLimit s
  | Intersect limit b => onSuggestIntersect limit b s
  | Timeout => onSuggestTimeout s
  end.

Definition suggestRun (evs : list SuggestEvent) : Suggest :=
  fold_left suggestStep evs suggestInitial.
End WatchPage.

(** *** CommentSection.tsx: posting, editing and deleting *)

(** [String.prototype.trim]. *)
Class JsTrim := trim : string -> string.

Module CommentsEditing.
Inductive Call :=
| addCommentApi (videoId text : string)
| updateCommentApi (commentId text : string)
| deleteCommentApi (commentId : string).

Record Env := {
  pager : CommentsSection.Env;
  posting : bool;
  text : string;
  editingId : option string;
  editText : string;
  calls : list Call;
  successes : list string (* toast.success *)
}.

Definition withPager (f : CommentsSection.Env -> CommentsSection.Env)
  (e : Env) : Env :=
  {| pager := f (pager e); posting := posting e; text := text e;
     editingId := editingId e; editText := editText e;
     calls := calls e; successes := successes e |}.

Definition setPosting (b : bool) (e : Env) : Env :=
  {| pager := pager e; posting := b; text := text e;
     editingId := editingId e; editText := editText e;
     calls := calls e; successes := successes e |}.

Definition setText (s : string) (e : Env) : Env :=
  {| pager := pager e; posting := posting e; text := s;
     editingId := editingId e; editText := editText e;
     calls := calls e; successes := successes e |}.

Definition setEditingId (i : option string) (e : Env) : Env :=
  {| pager := pager e; posting := posting e; text := text e;
     editingId := i; editText := editText e;
     calls := calls e; successes := successes e |}.

Definition setEditText (s : string) (e : Env) : Env :=
  {| pager := pager e; posting := posting e; text := text e;
     editingId := editingId e; editText := s;
     calls := calls e; successes := successes e |}.

Definition call (c : Call) (e : Env) : Env :=
  {| pager := pager e; posting := posting e; text := text e;
     editingId := editingId e; editText := editText e;
     calls := calls e ++ [c]; successes := successes e |}.

Definition toast_success (msg : string) (e : Env) : Env :=
  {| pager := pager e; posting := posting e; text := text e;
     editingId := editingId e; editText := editText e;
     calls := calls e; successes := successes e ++ [msg] |}.

(** [err?.response?.data?.message || err?.message || fallback] *)
Definition errorText (err : ApiError) (fallback : string) : string :=
  match data err with
  | JsonError m _ => orElse m (orElse (message err) fallback)
  | _ => orElse (message err) fallback
  end.

Definition items (e : Env) : list CommentsSection.CommentItem :=
  CommentsSection.items (CommentsSection.state (pager e)).

Definition totalDocs (e : Env) : Z :=
  CommentsSection.totalDocs (CommentsSection.state (pager e)).

(** [onSubmit]; [c_text] is the [text] of the render. *)
Definition onSubmit_start `{JsTrim}
  (pr : CommentsSection.Props) (c_text : string) (e : Env)
  : Env * bool :=
  let t := trim c_text in
  if String.eqb t "" then (e, false)
  else
    let e := setPosting true e in
    (call (addCommentApi (CommentsSection.videoId pr) t) e, true).

Definition onSubmit_settle
  (o : Outcome CommentsSection.CommentItem) (e : Env) : Env :=
  let e :=
    match o with
    | Resolved created =>
        let e :=
          withPager (CommentsSection.setItems (fun prev => created :: prev))
                    e in
        let e :=
          withPager (fun pg =>
            CommentsSection.setTotalDocs
              (CommentsSection.totalDocs (CommentsSection.state pg) + 1) pg)
            e in
        setText "" e
    | Rejected err =>
        withPager
          (CommentsSection.toast_error (errorText err "Failed to add comment"))
          e
    end in
  setPosting false e.

Definition startEdit (c : CommentsSection.CommentItem) (e : Env) : Env :=
  setEditText (CommentsSection.text c)
    (setEditingId (Some (CommentsSection._id c)) e).

Definition cancelEdit (e : Env) : Env :=
  setEditText "" (setEditingId None e).

(** [saveEdit]; [c_editText] is the [editText] of the render. *)
Definition saveEdit_start `{JsTrim}
  (commentId : string) (c_editText : string) (e : Env) : Env * bool :=
  let t := trim c_editText in
  if String.eqb t "" then (e, false)
  else (call (updateCommentApi commentId t) e, true).

Definition saveEdit_settle (commentId : string)
  (o : Outcome CommentsSection.CommentItem) (e : Env) : Env :=
  match o with
  | Resolved updated =>
      let e :=
        withPager
          (CommentsSection.setItems
             (map (fun c =>
                if String.eqb (CommentsSection._id c) commentId
                then updated else c)))
          e in
      cancelEdit (toast_success "Comment updated" e)
  | Rejected err =>
      withPager
        (CommentsSection.toast_error
           (errorText err "Failed to update comment"))
        e
  end.

(** [remove]; [ok] is the answer of [window.confirm]. *)
Definition remove_start (commentId : string) (ok : bool) (e : Env)
  : Env * bool :=
  if negb ok then (e, false)
  else (call (deleteCommentApi commentId) e, true).

Definition remove_settle (commentId : string)
  (o : Outcome unit) (e : Env) : Env :=
  match o with
  | Resolved _ =>
      let e :=
        withPager
          (CommentsSection.setItems
             (filter (fun c =>
                negb (String.eqb (CommentsSection._id c) commentId))))
          e in
      let e :=
        withPager (fun pg =>
          CommentsSection.setTotalDocs
            (Z.max 0
               (CommentsSection.totalDocs (CommentsSection.state pg) - 1))
            pg)
          e in
      toast_success "Comment deleted" e
  | Rejected err =>
      withPager
        (CommentsSection.toast_error
           (errorText err "Failed to delete comment"))
        e
  end.
End CommentsEditing.

(** *** Home.tsx and Threads.tsx as event loops

    A run interleaves, in any order, the callbacks the page can
    receive; [inflight] holds the requests that have been issued and
    have not settled, oldest first, and [settled] counts the others. *)

Module HomeRun.
Inductive Event :=
| Mount
| Intersect (c : Home.State) (isIntersecting : bool)
| Settle (o : Outcome Home.ApiResponse).

Record Sys := {
  env : Home.Env;
  inflight : list Home.Pending;
  settled : nat
}.

Definition initial : Sys :=
  {| env := {| Home.state := Home.initial; Home.lockRef := false;
               Home.requests := []; Home.toasts := [] |};
     inflight := []; settled := O |}.

Definition started (s : Sys) (r : Home.Env * option Home.Pending) : Sys :=
  {| env := fst r;
     inflight :=
       match snd r with
       | Some p => inflight s ++ [p]
       | None => inflight s
       end;
     settled := settled s |}.

Definition step `{HtmlErrorPages} (s : Sys) (ev : Event) : Sys :=
  match ev with
  | Mount => started s (Home.fetchPage_start 1 false (env s))
  | Intersect c b => started s (Home.onIntersect c b (env s))
  | Settle o =>
      match inflight s with
      | [] => s
      | p :: rest =>
          {| env := Home.fetchPage_settle p o (env s);
             inflight := rest; settled := S (settled s) |}
      end
  end.

Definition run `{HtmlErrorPages} (evs : list Event) : Sys :=
  fold_left step evs initial.

(** The lock is held exactly while one request is in flight, and
    every request issued has settled or is that one. *)
Definition invariant (s : Sys) : Prop :=
  ((inflight s = [] /\ Home.lockRef (env s) = false) \/
   (exists p, inflight s = [p] /\ Home.lockRef (env s) = true)) /\
  List.length (Home.requests (env s)) =
    (settled s + List.length (inflight s))%nat.
End HomeRun.

Module ThreadsRun.
Inductive Event :=
| Mount
| Intersect (c : Threads.State) (isIntersecting : bool)
| Refresh (c_refreshing : bool)
| Settle (o : Outcome Threads.ApiResponse).

(** A request in flight, and whether [handleRefresh] awaits it. *)
Record Sys := {
  env : Threads.Env;
  refreshing : bool;
  inflight : list (Threads.Pending * bool);
  settled : nat
}.

Definition initial : Sys :=
  {| env := {| Threads.state := Threads.initial;
               Threads.loadingRef := false;
               Threads.requests := []; Threads.toasts := [] |};
     refreshing := false; inflight := []; settled := O |}.

Definition started (s : Sys) (r : Threads.Env * option Threads.Pending)
  : Sys :=
  {| env := fst r; refreshing := refreshing s;
     inflight :=
       match snd r with
       | Some p => inflight s ++ [(p, false)]
       | None => inflight s
       end;
     settled := settled s |}.

(** [handleRefresh]:
<<
if (refreshing) return;
setRefreshing(true);
await fetchPage(1, { append: false });
setRefreshing(false);
>>
    When [fetchPage] returns at once because of the guard, the
    continuation runs without a response. *)
Definition handleRefresh (c_refreshing : bool) (s : Sys) : Sys :=
  if c_refreshing then s
  else
    let r := Threads.fetchPage_start 1 false (env s) in
    match snd r with
    | Some p =>
        {| env := fst r; refreshing := true;
           inflight := inflight s ++ [(p, true)]; settled := settled s |}
    | None =>
        {| env := fst r; refreshing := false;
           inflight := inflight s; settled := settled s |}
    end.

Definition step `{HtmlErrorPages} (s : Sys) (ev : Event) : Sys :=
  match ev with
  | Mount => started s (Threads.fetchPage_start 1 false (env s))
  | Intersect c b => started s (Threads.onIntersect c b (env s))
  | Refresh c_refreshing => handleRefresh c_refreshing s
  | Settle o =>
      match inflight s with
      | [] => s
      | (p, awaited) :: rest =>
          {| env := Threads.fetchPage_settle p o (env s);
             refreshing := if awaited then false else refreshing s;
             inflight := rest; settled := S (settled s) |}
      end
  end.

Definition run `{HtmlErrorPages} (evs : list Event) : Sys :=
  fold_left step evs initial.

(** The guard is up exactly while one request is in flight; the
    refresh flag is up only while that request is the one
    [handleRefresh] awaits. *)
Definition invariant (s : Sys) : Prop :=
  ((inflight s = [] /\ Threads.loadingRef (env s) = false /\
    refreshing s = false) \/
   (exists p awaited,
      inflight s = [(p, awaited)] /\ Threads.loadingRef (env s) = true /\
      (refreshing s = true -> awaited = true))) /\
  List.length (Threads.requests (env s)) =
    (settled s + List.length (inflight s))%nat.
End ThreadsRun.

(** * Properties *)

(** ** Insertion-ordered maps *)

Section JsMapFacts.
Context {V : Type}.
Implicit Types (m : JsMap.t V) (k : string) (v : V).

Lemma has_In k m : JsMap.has k m = true <-> In k (JsMap.keys m).
Proof.
  unfold JsMap.has. rewrite existsb_exists. split.
  - intros (k' & Hin & Heq). apply String.eqb_eq in Heq. now subst.
  - intros Hin. exists k. split; [assumption | apply String.eqb_refl].
Qed.

Lemma has_false k m : JsMap.has k m = false <-> ~ In k (JsMap.keys m).
Proof.
  rewrite <- has_In. destruct (JsMap.has k m); split; intro; congruence.
Qed.

Lemma set_fresh k v m :
  ~ In k (JsMap.keys m) -> JsMap.set k v m = (m ++ [(k, v)])%list.
Proof.
  induction m as [|[k' v'] m IH]; simpl; intros Hnin.
  - reflexivity.
  - destruct (String.eqb_spec k k') as [->|Hne].
    + exfalso. apply Hnin. now left.
    + f_equal. apply IH. intro. apply Hnin. now right.
Qed.

Lemma keys_set_present k v m :
  In k (JsMap.keys m) -> JsMap.keys (JsMap.set k v m) = JsMap.keys m.
Proof.
  induction m as [|[k' v'] m IH]; simpl; intros Hin.
  - contradiction.
  - destruct (String.eqb_spec k k') as [->|Hne]; simpl.
    + reflexivity.
    + f_equal. apply IH. destruct Hin; [congruence | assumption].
Qed.

Lemma keys_set k v m :
  JsMap.keys (JsMap.set k v m) =
  if JsMap.has k m then JsMap.keys m else (JsMap.keys m ++ [k])%list.
Proof.
  destruct (JsMap.has k m) eqn:Hhas.
  - apply keys_set_present. now apply has_In.
  - apply has_false in Hhas. rewrite set_fresh by assumption.
    unfold JsMap.keys. now rewrite map_app.
Qed.

Lemma In_keys_set k' k v m :
  In k' (JsMap.keys (JsMap.set k v m)) <-> k' = k \/ In k' (JsMap.keys m).
Proof.
  rewrite keys_set. destruct (JsMap.has k m) eqn:Hhas.
  - apply has_In in Hhas. split; [now right | ].
    intros [->|Hin]; assumption.
  - rewrite in_app_iff. simpl. split.
    + intros [Hin|[->|[]]]; [now right | now left].
    + intros [->|Hin]; [right; now left | now left].
Qed.

Lemma NoDup_keys_set k v m :
  NoDup (JsMap.keys m) -> NoDup (JsMap.keys (JsMap.set k v m)).
Proof.
  intros Hnd. rewrite keys_set. destruct (JsMap.has k m) eqn:Hhas.
  - assumption.
  - apply has_false in Hhas.
    apply NoDup_rev in Hnd. rewrite <- (rev_involutive (_ ++ _)).
    apply NoDup_rev. rewrite rev_app_distr. simpl.
    constructor; [ | assumption].
    now rewrite <- in_rev.
Qed.

Lemma get_set k' k v m :
  JsMap.get k' (JsMap.set k v m) =
  if String.eqb k' k then Some v else JsMap.get k' m.
Proof.
  induction m as [|[k0 v0] m IH]; simpl.
  - reflexivity.
  - destruct (String.eqb_spec k k0) as [->|Hne]; simpl.
    + destruct (String.eqb k' k0); reflexivity.
    + destruct (String.eqb_spec k' k0) as [->|Hne'].
      * destruct (String.eqb_spec k0 k); [congruence | reflexivity].
      * apply IH.
Qed.

Lemma get_None k m : ~ In k (JsMap.keys m) -> JsMap.get k m = None.
Proof.
  induction m as [|[k0 v0] m IH]; simpl; intros Hnin.
  - reflexivity.
  - destruct (String.eqb_spec k k0) as [->|Hne].
    + exfalso. apply Hnin. now left.
    + apply IH. intro. apply Hnin. now right.
Qed.

(** The value found under the key at position [i] is the value at
    position [i]. *)
Lemma nth_error_values m : forall i k v,
  NoDup (JsMap.keys m) ->
  nth_error (JsMap.keys m) i = Some k ->
  JsMap.get k m = Some v ->
  nth_error (JsMap.values m) i = Some v.
Proof.
  induction m as [|[k0 v0] m IH]; intros [|i] k v Hnd Hnth Hget;
    simpl in *; try discriminate.
  - injection Hnth as ->. now rewrite String.eqb_refl in Hget.
  - inversion Hnd as [|? ? Hnin Hnd']; subst.
    destruct (String.eqb_spec k k0) as [->|Hne].
    + exfalso. apply Hnin. eapply nth_error_In. eassumption.
    + eapply IH; eassumption.
Qed.

(** Two maps with the same keys in the same order and the same value
    under each key are the same map. *)
Lemma map_ext m1 : forall m2,
  NoDup (JsMap.keys m1) ->
  JsMap.keys m1 = JsMap.keys m2 ->
  (forall k, JsMap.get k m1 = JsMap.get k m2) ->
  m1 = m2.
Proof.
  induction m1 as [|[k1 v1] m1 IH]; intros [|[k2 v2] m2] Hnd Hkeys Hget;
    simpl in *; try discriminate.
  - reflexivity.
  - injection Hkeys as -> Hkeys.
    inversion Hnd as [|? ? Hnin Hnd']; subst.
    pose proof (Hget k2) as Hk. rewrite String.eqb_refl in Hk.
    injection Hk as ->. f_equal.
    apply IH; try assumption.
    intros k. specialize (Hget k).
    destruct (String.eqb_spec k k2) as [Heq|Hne]; [ | assumption].
    rewrite Heq, get_None by assumption.
    rewrite get_None; [reflexivity | now rewrite <- Hkeys].
Qed.
End JsMapFacts.

(** ** Merge by identity key *)

Section MergeFacts.
Context {T : Type} `{Keyed T}.
Implicit Types (xs prev docs : list T) (m : JsMap.t T) (k : string).

Lemma setAll_cons x xs m :
  setAll (x :: xs) m = setAll xs (JsMap.set (keyOf x) x m).
Proof. reflexivity. Qed.

Lemma wellKeyed_set x m :
  wellKeyed m -> wellKeyed (JsMap.set (keyOf x) x m).
Proof.
  unfold wellKeyed. induction m as [|[k0 v0] m IH]; simpl; intros Hwk.
  - now constructor.
  - inversion Hwk; subst.
    destruct (String.eqb (keyOf x) k0); constructor; auto.
Qed.

Lemma wellKeyed_setAll xs : forall m,
  wellKeyed m -> wellKeyed (setAll xs m).
Proof.
  induction xs as [|x xs IH]; intros m Hwk; [assumption | ].
  rewrite setAll_cons. apply IH. now apply wellKeyed_set.
Qed.

Lemma keys_of_values m :
  wellKeyed m -> map keyOf (JsMap.values m) = JsMap.keys m.
Proof.
  unfold JsMap.values, JsMap.keys. induction 1 as [|[k v] m Hk _ IH]; simpl.
  - reflexivity.
  - simpl in Hk. now rewrite IH, Hk.
Qed.

Lemma entries_of_values m :
  wellKeyed m -> map entry (JsMap.values m) = m.
Proof.
  unfold JsMap.values. induction 1 as [|[k v] m Hk _ IH]; simpl.
  - reflexivity.
  - simpl in Hk. unfold entry at 1. simpl. now rewrite IH, Hk.
Qed.

Lemma keys_entries xs : JsMap.keys (map entry xs) = map keyOf xs.
Proof. unfold JsMap.keys. rewrite map_map. reflexivity. Qed.

Lemma NoDup_keys_setAll xs : forall m,
  NoDup (JsMap.keys m) -> NoDup (JsMap.keys (setAll xs m)).
Proof.
  induction xs as [|x xs IH]; intros m Hnd; [assumption | ].
  rewrite setAll_cons. apply IH. now apply NoDup_keys_set.
Qed.

Lemma In_keys_setAll k xs : forall m,
  In k (JsMap.keys (setAll xs m)) <->
  In k (JsMap.keys m) \/ In k (map keyOf xs).
Proof.
  induction xs as [|x xs IH]; intros m.
  - simpl. tauto.
  - rewrite setAll_cons, IH, In_keys_set. simpl. intuition congruence.
Qed.

Lemma get_setAll k xs : forall m,
  JsMap.get k (setAll xs m) = latest k xs (JsMap.get k m).
Proof.
  induction xs as [|x xs IH]; intros m; [reflexivity | ].
  rewrite setAll_cons, IH, get_set. reflexivity.
Qed.

Lemma find_snoc (f : T -> bool) xs x :
  find f (xs ++ [x]) =
  match find f xs with
  | Some y => Some y
  | None => if f x then Some x else None
  end.
Proof.
  induction xs as [|y xs IH]; simpl; [reflexivity | ].
  destruct (f y); [reflexivity | apply IH].
Qed.

Lemma latest_lastWithKey k xs : forall before,
  latest k xs before =
  match lastWithKey k xs with
  | Some x => Some x
  | None => before
  end.
Proof.
  unfold lastWithKey.
  induction xs as [|x xs IH]; intros before; [reflexivity | ].
  simpl. unfold latest in *. simpl. rewrite IH, find_snoc.
  destruct (find _ (rev xs)); [reflexivity | ].
  destruct (String.eqb k (keyOf x)); reflexivity.
Qed.

Lemma latest_idem k xs before :
  latest k xs (latest k xs before) = latest k xs before.
Proof.
  rewrite !latest_lastWithKey. destruct (lastWithKey k xs); reflexivity.
Qed.

Lemma keys_setAll_prefix xs : forall m,
  exists more, JsMap.keys (setAll xs m) = (JsMap.keys m ++ more)%list.
Proof.
  induction xs as [|x xs IH]; intros m.
  - exists []. simpl. now rewrite app_nil_r.
  - rewrite setAll_cons. destruct (IH (JsMap.set (keyOf x) x m)) as [more ->].
    rewrite keys_set. destruct (JsMap.has (keyOf x) m).
    + now exists more.
    + exists (keyOf x :: more). now rewrite <- app_assoc.
Qed.

Lemma keys_setAll_present xs : forall m,
  (forall x, In x xs -> In (keyOf x) (JsMap.keys m)) ->
  JsMap.keys (setAll xs m) = JsMap.keys m.
Proof.
  induction xs as [|x xs IH]; intros m Hin; [reflexivity | ].
  rewrite setAll_cons.
  assert (Hk : JsMap.keys (JsMap.set (keyOf x) x m) = JsMap.keys m)
    by (apply keys_set_present, Hin; now left).
  rewrite IH; [assumption | ].
  intros y Hy. rewrite Hk. apply Hin. now right.
Qed.

Lemma setAll_fresh xs : forall m,
  NoDup (JsMap.keys m ++ map keyOf xs) ->
  setAll xs m = (m ++ map entry xs)%list.
Proof.
  induction xs as [|x xs IH]; intros m Hnd.
  - simpl. now rewrite app_nil_r.
  - rewrite setAll_cons. simpl in Hnd.
    assert (Hnin : ~ In (keyOf x) (JsMap.keys m)).
    { apply NoDup_remove_2 in Hnd. intro. apply Hnd.
      apply in_or_app. now left. }
    rewrite set_fresh by assumption.
    rewrite IH.
    + now rewrite <- app_assoc.
    + unfold JsMap.keys in *. rewrite map_app. simpl.
      now rewrite <- app_assoc.
Qed.

(** Seeding the map from a collection without duplicates files the
    items one after the other. *)
Lemma setAll_seed prev :
  NoDup (map keyOf prev) -> setAll prev JsMap.empty = map entry prev.
Proof. intros Hnd. now rewrite setAll_fresh. Qed.

Lemma setAll_values m :
  wellKeyed m -> NoDup (JsMap.keys m) ->
  setAll (JsMap.values m) JsMap.empty = m.
Proof.
  intros Hwk Hnd. rewrite setAll_seed.
  - now apply entries_of_values.
  - now rewrite keys_of_values.
Qed.

Lemma wellKeyed_merged prev docs :
  wellKeyed (setAll docs (setAll prev JsMap.empty)).
Proof. do 2 apply wellKeyed_setAll. constructor. Qed.

Lemma NoDup_keys_merged prev docs :
  NoDup (JsMap.keys (setAll docs (setAll prev JsMap.empty))).
Proof. do 2 apply NoDup_keys_setAll. constructor. Qed.

Lemma keys_mergeById prev docs :
  map keyOf (mergeById prev docs) =
  JsMap.keys (setAll docs (setAll prev JsMap.empty)).
Proof. apply keys_of_values, wellKeyed_merged. Qed.

Lemma NoDup_mergeById prev docs : NoDup (map keyOf (mergeById prev docs)).
Proof. rewrite keys_mergeById. apply NoDup_keys_merged. Qed.

Lemma In_keys_mergeById k prev docs :
  In k (map keyOf (mergeById prev docs)) <->
  In k (map keyOf (prev ++ docs)).
Proof.
  rewrite keys_mergeById, !In_keys_setAll, map_app, in_app_iff.
  simpl. tauto.
Qed.
End MergeFacts.

Section MergeTheorems.
Context {T : Type} `{Keyed T}.
Implicit Types (prev docs : list T) (m : JsMap.t T) (k : string).

(** C1: in the collection that the append-mode merge by [_id] of Home,
    SuggestedVideos and Threads produces from a previous collection and
    an incoming page, no [_id] is repeated, and every [_id] of the
    previous collection or of the page appears exactly once. *)
Theorem mergeById_each_key_once prev docs :
  NoDup (map keyOf (mergeById prev docs)) /\
  forall k,
    count_occ string_dec (map keyOf (mergeById prev docs)) k =
    if existsb (String.eqb k) (map keyOf (prev ++ docs))
    then 1%nat else 0%nat.
Proof.
  split; [apply NoDup_mergeById | ].
  intros k.
  destruct (existsb _ (map keyOf (prev ++ docs))) eqn:Hk.
  - apply NoDup_count_occ'; [apply NoDup_mergeById | ].
    apply In_keys_mergeById.
    apply existsb_exists in Hk. destruct Hk as (k' & Hin & Heq).
    apply String.eqb_eq in Heq. now subst.
  - apply count_occ_not_In. intros Hin.
    apply In_keys_mergeById in Hin.
    assert (existsb (String.eqb k) (map keyOf (prev ++ docs)) = true);
      [ | congruence].
    apply existsb_exists. exists k. split; [assumption | ].
    apply String.eqb_refl.
Qed.

(** Setting the items of a page again, on a map that already holds
    them, changes nothing. *)
Lemma setAll_again docs m :
  NoDup (JsMap.keys m) -> setAll docs (setAll docs m) = setAll docs m.
Proof.
  intros Hnd. apply map_ext.
  - now do 2 apply NoDup_keys_setAll.
  - apply keys_setAll_present. intros x Hx.
    apply In_keys_setAll. right. now apply in_map.
  - intros k. rewrite !get_setAll. apply latest_idem.
Qed.

(** C6: the append-mode merge is idempotent: merging the page [docs]
    once more into the merged collection gives the merged collection
    back, item for item and in the same order. *)
Theorem mergeById_idempotent prev docs :
  mergeById (mergeById prev docs) docs = mergeById prev docs.
Proof.
  unfold mergeById at 1. unfold mergeById at 1.
  rewrite setAll_values.
  - unfold mergeById. f_equal. apply setAll_again.
    apply NoDup_keys_setAll. constructor.
  - apply wellKeyed_merged.
  - apply NoDup_keys_merged.
Qed.

Lemma get_entries prev : forall y,
  NoDup (map keyOf prev) -> In y prev ->
  JsMap.get (keyOf y) (map entry prev) = Some y.
Proof.
  induction prev as [|x prev IH]; intros y Hnd Hin; [contradiction | ].
  simpl in *. inversion Hnd as [|? ? Hnin Hnd']; subst.
  destruct Hin as [->|Hin].
  - now rewrite String.eqb_refl.
  - destruct (String.eqb_spec (keyOf y) (keyOf x)) as [Heq|Hne].
    + exfalso. apply Hnin. rewrite <- Heq. now apply in_map.
    + now apply IH.
Qed.

(** An item of the previous collection keeps its index; what sits
    there afterwards is the last item of the page with its key, or the
    item itself when the page has none. *)
Lemma nth_error_mergeById prev docs i y :
  NoDup (map keyOf prev) ->
  nth_error prev i = Some y ->
  nth_error (mergeById prev docs) i = latest (keyOf y) docs (Some y).
Proof.
  intros Hnd Hnth. unfold mergeById.
  assert (Hlatest :
    JsMap.get (keyOf y) (setAll docs (setAll prev JsMap.empty)) =
    latest (keyOf y) docs (Some y)).
  { rewrite get_setAll, setAll_seed by assumption.
    rewrite get_entries; [reflexivity | assumption | ].
    eapply nth_error_In. eassumption. }
  assert (Hsome : exists x, latest (keyOf y) docs (Some y) = Some x).
  { rewrite latest_lastWithKey. destruct (lastWithKey _ docs); eauto. }
  destruct Hsome as [x Hx]. rewrite Hx in *.
  apply nth_error_values with (k := keyOf y).
  - apply NoDup_keys_merged.
  - destruct (keys_setAll_prefix docs (setAll prev JsMap.empty))
      as [more ->].
    rewrite setAll_seed, keys_entries by assumption.
    rewrite nth_error_app1.
    + now apply map_nth_error.
    + rewrite length_map. apply nth_error_Some. congruence.
  - assumption.
Qed.

Lemma has_entries k prev :
  JsMap.has k (map entry prev) = existsb (String.eqb k) (map keyOf prev).
Proof. unfold JsMap.has. now rewrite keys_entries. Qed.

(** With distinct keys in the page, the map grows by the items whose
    key it does not hold yet. *)
Lemma length_setAll docs : forall m,
  NoDup (map keyOf docs) ->
  (List.length (setAll docs m)
   + List.length (filter (fun x => JsMap.has (keyOf x) m) docs)
   = List.length m + List.length docs)%nat.
Proof.
  induction docs as [|x docs IH]; intros m Hnd; simpl; [lia | ].
  inversion Hnd as [|? ? Hnin Hnd']; subst.
  fold (setAll docs (JsMap.set (keyOf x) x m)).
  specialize (IH (JsMap.set (keyOf x) x m) Hnd').
  assert (Hsame :
    filter (fun y => JsMap.has (keyOf y) (JsMap.set (keyOf x) x m)) docs =
    filter (fun y => JsMap.has (keyOf y) m) docs).
  { apply filter_ext_in. intros y Hy. unfold JsMap.has.
    rewrite keys_set. destruct (JsMap.has (keyOf x) m); [reflexivity | ].
    rewrite existsb_app. simpl.
    destruct (String.eqb_spec (keyOf y) (keyOf x)) as [Heq|Hne].
    - exfalso. apply Hnin. rewrite <- Heq. now apply in_map.
    - now rewrite !orb_false_r. }
  rewrite Hsame in IH.
  assert (Hlen :
    List.length (JsMap.set (keyOf x) x m) =
    if JsMap.has (keyOf x) m then List.length m else S (List.length m)).
  { rewrite <- (length_map fst (JsMap.set _ _ _)).
    fold (JsMap.keys (JsMap.set (keyOf x) x m)). rewrite keys_set.
    destruct (JsMap.has (keyOf x) m); unfold JsMap.keys.
    - now rewrite length_map.
    - rewrite length_app, length_map. simpl. lia. }
  rewrite Hlen in IH.
  destruct (JsMap.has (keyOf x) m); simpl; lia.
Qed.

Lemma length_mergeById prev docs :
  NoDup (map keyOf prev) -> NoDup (map keyOf docs) ->
  (List.length (mergeById prev docs) + List.length (collisions prev docs)
   = List.length prev + List.length docs)%nat.
Proof.
  intros Hp Hd. unfold mergeById, JsMap.values, collisions.
  rewrite length_map, setAll_seed by assumption.
  pose proof (@length_setAll docs (map entry prev) Hd) as Hlen.
  rewrite length_map in Hlen. rewrite <- Hlen. f_equal. f_equal.
  apply filter_ext. intros x. symmetry. apply has_entries.
Qed.

(** C7: an item of the previous collection whose key comes again in
    the page keeps its position and takes the page's data, an item
    whose key does not come again is untouched; so two pages of ten
    items with one colliding key merge into nineteen items with
    distinct keys. *)
Theorem mergeById_updates_in_place prev docs :
  NoDup (map keyOf prev) ->
  (forall i y x,
      nth_error prev i = Some y ->
      lastWithKey (keyOf y) docs = Some x ->
      nth_error (mergeById prev docs) i = Some x) /\
  (forall i y,
      nth_error prev i = Some y ->
      lastWithKey (keyOf y) docs = None ->
      nth_error (mergeById prev docs) i = Some y) /\
  (NoDup (map keyOf docs) ->
   List.length prev = 10%nat -> List.length docs = 10%nat ->
   List.length (collisions prev docs) = 1%nat ->
   List.length (mergeById prev docs) = 19%nat /\
   NoDup (map keyOf (mergeById prev docs))).
Proof.
  intros Hnd. split; [ | split].
  - intros i y x Hnth Hlast.
    rewrite (@nth_error_mergeById prev docs i y Hnd Hnth), latest_lastWithKey.
    now rewrite Hlast.
  - intros i y Hnth Hlast.
    rewrite (@nth_error_mergeById prev docs i y Hnd Hnth), latest_lastWithKey.
    now rewrite Hlast.
  - intros Hdocs Hprev10 Hdocs10 Hone. split.
    + pose proof (@length_mergeById prev docs Hnd Hdocs). lia.
    + apply NoDup_mergeById.
Qed.
End MergeTheorems.

(** The scenario of C7 on the Home feed: nineteen videos, and the one
    at index 9 carries the data of page two. *)
Lemma mergeById_updates_in_place_witness :
  NoDup (map keyOf Samples.pageOne) /\
  List.length (mergeById Samples.pageOne Samples.pageTwo) = 19%nat /\
  nth_error (mergeById Samples.pageOne Samples.pageTwo) 9 =
    Some (Samples.video "v10" "page two").
Proof.
  assert (Hone : NoDup (map keyOf Samples.pageOne))
    by (repeat constructor; simpl; intuition discriminate).
  assert (Htwo : NoDup (map keyOf Samples.pageTwo))
    by (repeat constructor; simpl; intuition discriminate).
  destruct (mergeById_updates_in_place Samples.pageOne Samples.pageTwo Hone)
    as (Hreplace & _ & Hscenario).
  split; [exact Hone | split].
  - apply Hscenario; [exact Htwo | reflexivity | reflexivity | reflexivity].
  - apply (Hreplace 9%nat (Samples.video "v10" "page one")); reflexivity.
Defined.

(** ** Unwrapping response envelopes *)

Section NormalizerFacts.
Import Json.
Local Open Scope js_scope.

Lemma member_when_array (v : value) (p : string) :
  isArray (v ?. p) = true -> member v p = Normal (v ?. p).
Proof. destruct v; simpl; intros Harr; try discriminate; reflexivity. Qed.

Lemma nullish_cases (a b : value) : a ?? b = a \/ a ?? b = b.
Proof. destruct a; simpl; auto. Qed.

Lemma or_cases (a b : value) : a ||| b = a \/ a ||| b = b.
Proof. unfold or. destruct (truthy a); auto. Qed.

(** The value in which [extractPlaylists] looks for the array is one
    of the fifteen places without the trailing [docs]. *)
Lemma docs_place (payload : value) :
  let base := payload ?. "data" ?? payload ?. "message" ?? payload in
  let docs :=
    base ?. "docs"
    ||| base ?. "data" ?. "docs"
    ||| base ?. "data" ?. "data" ?. "docs"
    ||| base ?. "data"
    ||| base in
  exists path,
    docs = follow payload path /\
    In path envelopeShapes /\ In (path ++ ["docs"])%list envelopeShapes.
Proof.
  intros base docs.
  assert (Hbase : exists b, base = follow payload b /\
                            In b [["data"]; ["message"]; []]).
  { subst base.
    destruct (nullish_cases (payload ?. "data" ?? payload ?. "message")
                            payload) as [-> | ->].
    - destruct (nullish_cases (payload ?. "data") (payload ?. "message"))
        as [-> | ->].
      + exists ["data"]. simpl. auto.
      + exists ["message"]. simpl. auto.
    - exists []. simpl. auto. }
  destruct Hbase as (b & Hb & Hin).
  assert (Hdocs : exists i, docs = follow base i /\
    In i [["docs"]; ["data"; "docs"]; ["data"; "data"; "docs"];
          ["data"]; []]).
  { subst docs.
    repeat match goal with
           | |- context [?x ||| ?y] =>
               destruct (or_cases x y) as [-> | ->]
           end;
      first [ exists ["docs"]; split; [reflexivity | simpl; tauto]
            | exists ["data"; "docs"]; split; [reflexivity | simpl; tauto]
            | exists ["data"; "data"; "docs"];
              split; [reflexivity | simpl; tauto]
            | exists ["data"]; split; [reflexivity | simpl; tauto]
            | exists []; split; [reflexivity | simpl; tauto] ]. }
  destruct Hdocs as (i & Hi & Hini).
  exists (b ++ i)%list. rewrite Hi, Hb. unfold follow.
  rewrite fold_left_app. split; [reflexivity | ].
  simpl in Hin, Hini.
  destruct Hin as [<- | [<- | [<- | []]]];
    destruct Hini as [<- | [<- | [<- | [<- | [<- | []]]]]];
    vm_compute; tauto.
Qed.
End NormalizerFacts.

Section NormalizerTheorems.
Context `{HtmlErrorPages}.
Import Json.
Local Open Scope js_scope.

Lemma extractPlaylists_total (payload : value) :
  exists items, extractPlaylists payload = Normal items.
Proof.
  unfold extractPlaylists.
  match goal with
  | |- context [isArray ?d] => generalize d; intros docs
  end.
  destruct (isArray docs); [eauto | ].
  destruct (isArray (docs ?. "docs")) eqn:Harr; [ | eauto].
  rewrite member_when_array by assumption. simpl. eauto.
Qed.

Lemma homeDocs_total (apiRes : value) :
  exists items, homeDocs apiRes = Normal items.
Proof.
  unfold homeDocs.
  destruct (isArray (apiRes ?. "data" ?. "docs")) eqn:Harr; [ | eauto].
  rewrite member_when_array by assumption. simpl. eauto.
Qed.

(** C9: unwrapping a response never throws, whatever the payload is,
    and when no array sits at any of the places looked at the result
    is the empty list; Home's [fetchPage] then goes on as for an empty
    page and shows no error. *)
Theorem normalizer_empty_fallback (payload : value) :
  (exists items, extractPlaylists payload = Normal items) /\
  (exists items, homeDocs payload = Normal items) /\
  (noArrayLocated payload ->
     extractPlaylists payload = Normal [] /\
     homeDocs payload = Normal []) /\
  (forall p data e,
     match data with
     | Some d => Home.Res.docs d = None
     | None => True
     end ->
     let e' := Home.fetchPage_settle p (Resolved data) e in
     Home.toasts e' = Home.toasts e /\
     Home.items (Home.state e') =
       if Home.append p
       then mergeById (Home.items (Home.state e)) []
       else []).
Proof.
  split; [apply extractPlaylists_total | ].
  split; [apply homeDocs_total | ].
  split.
  - intros Hnone. split.
    + unfold extractPlaylists.
      destruct (docs_place payload) as (path & Hdocs & Hin & Hin').
      cbv zeta in Hdocs. rewrite Hdocs.
      rewrite (Hnone path Hin).
      replace (follow payload path ?. "docs")
        with (follow payload (path ++ ["docs"])%list)
        by (unfold follow; now rewrite fold_left_app).
      now rewrite (Hnone _ Hin').
    + unfold homeDocs.
      change (payload ?. "data" ?. "docs")
        with (follow payload ["data"; "docs"]).
      rewrite Hnone; [reflexivity | vm_compute; tauto].
  - intros p data e Hdocs e'. subst e'. unfold Home.fetchPage_settle.
    assert (Hempty :
      match data with
      | Some d =>
          match Home.Res.docs d with Some xs => xs | None => [] end
      | None => []
      end = []).
    { destruct data as [d|]; [now rewrite Hdocs | reflexivity]. }
    rewrite Hempty.
    destruct (Home.append p); split; reflexivity.
Qed.
End NormalizerTheorems.

(** C9 on a payload whose [data.docs] is a string. *)
Lemma normalizer_empty_fallback_witness :
  Json.noArrayLocated Samples.malformed /\
  Json.extractPlaylists Samples.malformed = Json.Normal [] /\
  Json.homeDocs Samples.malformed = Json.Normal [].
Proof.
  assert (Hnone : Json.noArrayLocated Samples.malformed).
  { intros path Hin. vm_compute in Hin.
    repeat (destruct Hin as [<- | Hin]; [reflexivity | ]).
    contradiction. }
  split; [exact Hnone | ].
  apply (@normalizer_empty_fallback (fun html => html) Samples.malformed).
  exact Hnone.
Defined.

(** ** The pagers *)

Section PagerTheorems.
Context `{HtmlErrorPages}.

(** *** What the views store after an append *)

Lemma Home_append_items p data e :
  Home.append p = true ->
  Home.items (Home.state (Home.fetchPage_settle p (Resolved data) e)) =
  mergeById (Home.items (Home.state e))
    match data with
    | Some d => match Home.Res.docs d with Some xs => xs | None => [] end
    | None => []
    end.
Proof.
  intros Happ. unfold Home.fetchPage_settle. rewrite Happ. reflexivity.
Qed.

Lemma Threads_append_rows p data e :
  Threads.append p = true ->
  Threads.rows (Threads.state
                  (Threads.fetchPage_settle p (Resolved data) e)) =
  mergeById (Threads.rows (Threads.state e))
    match data with
    | Some d => match Threads.Res.docs d with Some xs => xs | None => [] end
    | None => []
    end.
Proof.
  intros Happ. unfold Threads.fetchPage_settle. rewrite Happ. reflexivity.
Qed.

Lemma SuggestedVideos_items data e :
  SuggestedVideos.items
    (SuggestedVideos.state
       (SuggestedVideos.fetchPage_settle (Resolved data) e)) =
  mergeById (SuggestedVideos.items (SuggestedVideos.state e))
    match data with
    | Some d =>
        match SuggestedVideos.Res.docs d with Some xs => xs | None => [] end
    | None => []
    end.
Proof. reflexivity. Qed.

(** *** A failed page load *)

(** Home sets the page only after the response has arrived. *)
Lemma Home_failed_load c e e1 p err :
  Home.onIntersect c true e = (e1, Some p) ->
  let e2 := Home.fetchPage_settle p (Rejected err) e1 in
  Home.page (Home.state e2) = Home.page (Home.state e) /\
  Home.items (Home.state e2) = Home.items (Home.state e) /\
  List.length (Home.toasts e2) = S (List.length (Home.toasts e)).
Proof.
  unfold Home.onIntersect, Home.fetchPage_start. simpl.
  destruct (negb (Home.hasNextPage c)); [discriminate | ].
  destruct (Home.loadingFirst c || Home.loadingMore c); [discriminate | ].
  destruct (Home.lockRef e); [discriminate | ].
  intros [= <- <-]. simpl.
  rewrite length_app. simpl. repeat split; lia.
Qed.

(** So does Threads. *)
Lemma Threads_failed_load c e e1 p err :
  Threads.onIntersect c true e = (e1, Some p) ->
  let e2 := Threads.fetchPage_settle p (Rejected err) e1 in
  Threads.page (Threads.state e2) = Threads.page (Threads.state e) /\
  Threads.rows (Threads.state e2) = Threads.rows (Threads.state e) /\
  List.length (Threads.toasts e2) = S (List.length (Threads.toasts e)).
Proof.
  unfold Threads.onIntersect, Threads.fetchPage_start. simpl.
  destruct (Threads.hasMore c && negb (Threads.loadingRef e)
            && negb (Threads.loadingMore c)
            && negb (Threads.loadingFirst c)); [ | discriminate].
  destruct (Threads.loadingRef e); [discriminate | ].
  intros [= <- <-]. simpl.
  rewrite length_app. simpl. repeat split; lia.
Qed.

(** SuggestedVideos advances the page before it fetches, and nothing
    takes that back when the fetch fails. *)
Lemma SuggestedVideos_failed_load pr c e e1 err :
  SuggestedVideos.onLoadMore pr c e = (e1, true) ->
  let e2 := SuggestedVideos.fetchPage_settle (Rejected err) e1 in
  SuggestedVideos.page (SuggestedVideos.state e2) =
    SuggestedVideos.page c + 1 /\
  SuggestedVideos.items (SuggestedVideos.state e2) =
    SuggestedVideos.items (SuggestedVideos.state e).
Proof.
  unfold SuggestedVideos.onLoadMore, SuggestedVideos.fetchPage_start.
  destruct (_ || _ || _); [discriminate | ].
  destruct (String.eqb _ ""); [discriminate | ].
  destruct (SuggestedVideos.page c + 1 =? 1);
    intros [= <-]; simpl; split; reflexivity.
Qed.

(** C4, at the input on which the code departs from it: SuggestedVideos
    shows page 1 of 3; "Load more" is pressed and the request fails.
    The items are as before and the error is shown as a toast, but the
    page counter now reads 2. *)
Theorem SuggestedVideos_failed_load_advances_page :
  let c := Samples.suggestedState in
  let e := Samples.suggestedEnv in
  let e1 := fst (SuggestedVideos.onLoadMore Samples.suggestedProps c e) in
  let e2 :=
    SuggestedVideos.fetchPage_settle (Rejected Samples.networkError) e1 in
  snd (SuggestedVideos.onLoadMore Samples.suggestedProps c e) = true /\
  SuggestedVideos.page (SuggestedVideos.state e) = 1 /\
  SuggestedVideos.page (SuggestedVideos.state e2) = 2 /\
  SuggestedVideos.items (SuggestedVideos.state e2) =
    SuggestedVideos.items (SuggestedVideos.state e) /\
  SuggestedVideos.toasts e2 = ["Network Error"].
Proof. repeat split. Qed.

(** *** Calling "load next" twice in a row *)

(** [lockRef] is set before the request goes out, so the second call
    of the same callback returns at once. *)
Lemma Home_second_call_dropped c e e1 p :
  Home.onIntersect c true e = (e1, Some p) ->
  Home.onIntersect c true e1 = (e1, None) /\
  Home.requests e1 = (Home.requests e ++
    [{| Home.req_page := Home.page c + 1;
        Home.req_limit := Home.LIMIT |}])%list.
Proof.
  unfold Home.onIntersect, Home.fetchPage_start. simpl.
  destruct (negb (Home.hasNextPage c)); [discriminate | ].
  destruct (Home.loadingFirst c || Home.loadingMore c); [discriminate | ].
  destruct (Home.lockRef e); [discriminate | ].
  intros [= <- <-]. simpl. split; reflexivity.
Qed.

Lemma Threads_second_call_dropped c e e1 p :
  Threads.onIntersect c true e = (e1, Some p) ->
  Threads.onIntersect c true e1 = (e1, None) /\
  List.length (Threads.requests e1) = S (List.length (Threads.requests e)).
Proof.
  unfold Threads.onIntersect, Threads.fetchPage_start. simpl.
  destruct (Threads.hasMore c) eqn:Hmore; simpl; [ | discriminate].
  destruct (Threads.loadingRef e); simpl; [discriminate | ].
  destruct (Threads.loadingMore c); simpl; [discriminate | ].
  destruct (Threads.loadingFirst c); simpl; [discriminate | ].
  intros [= <- <-]. simpl. rewrite length_app. simpl.
  split; [reflexivity | lia].
Qed.

(** In SuggestedVideos the guard reads the [loading] flags of the
    render; a second call from the same render passes it again. *)
Lemma SuggestedVideos_second_call_passes pr c e e1 :
  SuggestedVideos.onLoadMore pr c e = (e1, true) ->
  snd (SuggestedVideos.onLoadMore pr c e1) = true.
Proof.
  unfold SuggestedVideos.onLoadMore, SuggestedVideos.fetchPage_start.
  destruct (_ || _ || _); [discriminate | ].
  destruct (String.eqb _ ""); [discriminate | ].
  reflexivity.
Qed.

(** C5, at the input on which the code departs from it: "Load more" of
    SuggestedVideos invoked twice from the render that shows page 1 of
    3 issues two requests, both for page 2. *)
Theorem SuggestedVideos_double_load_more_two_requests :
  let c := Samples.suggestedState in
  let e := Samples.suggestedEnv in
  let first := SuggestedVideos.onLoadMore Samples.suggestedProps c e in
  let second :=
    SuggestedVideos.onLoadMore Samples.suggestedProps c (fst first) in
  snd first = true /\ snd second = true /\
  SuggestedVideos.requests (fst second) =
    [ {| SuggestedVideos.req_videoId := "vid1";
         SuggestedVideos.req_page := 2; SuggestedVideos.req_limit := 12 |};
      {| SuggestedVideos.req_videoId := "vid1";
         SuggestedVideos.req_page := 2; SuggestedVideos.req_limit := 12 |} ].
Proof. repeat split. Qed.
End PagerTheorems.

(** *** Reset on a new subject *)

(** C8 as stated fails: after the reset of SuggestedVideos [hasMore]
    is false, since [page] and [totalPages] are both 1. *)
Lemma reset_hasMore_counterexample :
  SuggestedVideos.hasMore
    (SuggestedVideos.state (SuggestedVideos.reset Samples.suggestedEnv))
  <> true.
Proof. discriminate. Qed.

(** C8, amended: when [videoId] changes, the reset empties the
    collection and sets the page to 1; [hasMore] is false afterwards, in
    SuggestedVideos because [totalPages] is set to 1 and in
    CommentsSection because [hasNextPage] is set to false, until the
    first fetch brings the server's figures. *)
Theorem reset_clears_pager
  (e : SuggestedVideos.Env)
  (pr : CommentsSection.Props) (ec : CommentsSection.Env) :
  CommentsSection.videoId pr <> "" ->
  (let s := SuggestedVideos.state (SuggestedVideos.reset e) in
   SuggestedVideos.items s = [] /\
   SuggestedVideos.page s = 1 /\
   SuggestedVideos.hasMore s = false) /\
  (let s := CommentsSection.state (CommentsSection.reset pr ec) in
   CommentsSection.items s = [] /\
   CommentsSection.page s = 1 /\
   CommentsSection.hasNextPage s = false).
Proof.
  intros Hvid. split.
  - repeat split.
  - unfold CommentsSection.reset.
    destruct (String.eqb_spec (CommentsSection.videoId pr) "");
      [contradiction | ].
    repeat split.
Qed.

(** C8, amended, on SuggestedVideos at page 1 of 3 and on a comment
    list with two comments loaded. *)
Lemma reset_clears_pager_witness :
  CommentsSection.videoId Samples.commentsProps <> "" /\
  SuggestedVideos.hasMore
    (SuggestedVideos.state (SuggestedVideos.reset Samples.suggestedEnv))
  = false /\
  CommentsSection.hasNextPage
    (CommentsSection.state
       (CommentsSection.reset Samples.commentsProps Samples.commentsEnv))
  = false.
Proof.
  assert (Hvid : CommentsSection.videoId Samples.commentsProps <> "")
    by discriminate.
  split; [exact Hvid | ].
  destruct (reset_clears_pager Samples.suggestedEnv Samples.commentsProps
              Samples.commentsEnv Hvid)
    as ((_ & _ & Hs) & (_ & _ & Hc)).
  split; [exact Hs | exact Hc].
Defined.

(** *** The comment list *)

(** C10: the comment list takes a fetched page by concatenation: the
    list afterwards is the previous list followed by the fetched docs,
    and an [_id] occurs in it as often as in the two together, so a
    comment that comes in two pages is listed twice. *)
Theorem comments_append_is_concatenation
  (p : Z) (d : CommentsSection.Res.data) (e : CommentsSection.Env) :
  let prev := CommentsSection.items (CommentsSection.state e) in
  let docs := CommentsSection.orEmpty (CommentsSection.Res.docs d) in
  let after :=
    CommentsSection.items
      (CommentsSection.state
         (CommentsSection.fetchPage_settle p CommentsSection.append
            (Resolved d) e)) in
  after = (prev ++ docs)%list /\
  forall k,
    count_occ string_dec (map CommentsSection._id after) k =
    (count_occ string_dec (map CommentsSection._id prev) k
     + count_occ string_dec (map CommentsSection._id docs) k)%nat.
Proof.
  intros prev docs after.
  assert (Hafter : after = (prev ++ docs)%list) by reflexivity.
  split; [exact Hafter | ].
  intros k. rewrite Hafter, map_app. apply count_occ_app.
Qed.

(** A comment that the server returns again is listed twice. *)
Example comments_duplicate :
  let d := {| CommentsSection.Res.docs :=
                Some [Samples.comment "c2" "ho"; Samples.comment "c3" "hum"];
              CommentsSection.Res.totalDocs := Some 25;
              CommentsSection.Res.hasNextPage := Some true |} in
  map CommentsSection._id
    (CommentsSection.items
       (CommentsSection.state
          (CommentsSection.fetchPage_settle 3 CommentsSection.append
             (Resolved d) Samples.commentsEnv)))
  = ["c1"; "c2"; "c2"; "c3"].
Proof. reflexivity. Qed.

(** ** The optimistic toggles *)

Lemma orElse_empty (msg : string) : orElse (Some msg) "" = msg.
Proof.
  unfold orElse. destruct (String.eqb_spec msg ""); [now subst | reflexivity].
Qed.

(** C2 as stated fails: a message that contains "deleted" but also
    "created" is read as a like, and the optimistic state stays. *)
Lemma like_deleted_counterexample :
  let msg := "Like created, dislike deleted" in
  let started :=
    Watch.handleToggleLike_start Samples.watchState Samples.watchEnv in
  includes msg "deleted" = true /\
  Watch.liked Samples.watchState = false /\
  Watch.likesCount Samples.watchState = 5 /\
  match snd started with
  | Some p =>
      let e2 :=
        @Watch.handleToggleLike_settle (fun html => html) p
          (Resolved (Some msg)) (fst started) in
      Watch.liked (Watch.state e2) = true /\
      Watch.likesCount (Watch.state e2) = 6 /\
      ~ (Watch.liked (Watch.state e2) = false /\
         Watch.likesCount (Watch.state e2) = 5)
  | None => False
  end.
Proof.
  vm_compute. repeat split. intros [Hliked _]. discriminate.
Qed.

Section ToggleTheorems.
Context `{HtmlErrorPages}.

(** When the server's answer contradicts the optimistic guess, the
    count is taken from the count before the click. *)
Lemma like_reconciled_from_base p m e :
  let lower := toLowerCase (orElse m "") in
  let serverLiked :=
    if includes lower "created" then true
    else if includes lower "deleted" then false
    else Watch.nextLiked p in
  serverLiked <> Watch.nextLiked p ->
  let e2 := Watch.handleToggleLike_settle p (Resolved m) e in
  Watch.liked (Watch.state e2) = serverLiked /\
  Watch.likesCount (Watch.state e2) =
    Z.max 0 (Watch.prevCount p + (if serverLiked then 1 else 0)
             - (if Watch.prevLiked p then 1 else 0)).
Proof.
  intros lower serverLiked Hdiff e2. subst e2.
  unfold Watch.handleToggleLike_settle.
  fold lower. fold serverLiked.
  destruct (Bool.eqb serverLiked (Watch.nextLiked p)) eqn:Heq.
  - apply Bool.eqb_prop in Heq. contradiction.
  - simpl. split; reflexivity.
Qed.

(** C2, amended: from [liked = false], [likesCount = 5] the click
    shows [liked = true], [likesCount = 6] at once; when the server
    then answers with a message that contains "deleted" and does not
    contain "created" (letter case ignored), the state ends at
    [liked = false], [likesCount = 5]: the count before the click plus
    the confirmed direction, floored at 0. *)
Theorem like_toggle_reconciled
  (c : Watch.State) (e : Watch.Env) (vid msg : string) :
  Watch.videoId c = Some vid ->
  Watch.liking c = false ->
  Watch.liked c = false ->
  Watch.likesCount c = 5 ->
  includes (toLowerCase msg) "deleted" = true ->
  includes (toLowerCase msg) "created" = false ->
  exists e1 p,
    Watch.handleToggleLike_start c e = (e1, Some p) /\
    Watch.liked (Watch.state e1) = true /\
    Watch.likesCount (Watch.state e1) = 6 /\
    let e2 := Watch.handleToggleLike_settle p (Resolved (Some msg)) e1 in
    Watch.liked (Watch.state e2) = false /\
    Watch.likesCount (Watch.state e2) = 5 /\
    Watch.likesCount (Watch.state e2) =
      Z.max 0 (Watch.likesCount c
               + (if Watch.liked (Watch.state e2) then 1 else 0)
               - (if Watch.liked c then 1 else 0)).
Proof.
  intros Hvid Hliking Hliked Hcount Hdeleted Hcreated.
  unfold Watch.handleToggleLike_start.
  rewrite Hvid, Hliking, Hliked, Hcount.
  eexists. eexists. split; [reflexivity | ].
  split; [reflexivity | ]. split; [reflexivity | ].
  unfold Watch.handleToggleLike_settle.
  rewrite orElse_empty, Hcreated, Hdeleted. simpl.
  repeat split.
Qed.

(** C3: when the request of an optimistic toggle is rejected, the
    state is again what it was before the click: [liked] and
    [likesCount] for the like, [subscribed] for the subscription, the
    [playlists] array for the playlist membership, and the in-flight
    flags are down. *)
Theorem optimistic_toggles_roll_back (e : Watch.Env) (err : ApiError) :
  (forall e1 p,
      Watch.handleToggleLike_start (Watch.state e) e = (e1, Some p) ->
      Watch.state (Watch.handleToggleLike_settle p (Rejected err) e1)
      = Watch.state e) /\
  (forall e1 p,
      Watch.handleToggleSubscribe_start (Watch.state e) e = (e1, Some p) ->
      Watch.state (Watch.handleToggleSubscribe_settle p (Rejected err) e1)
      = Watch.state e) /\
  (forall pl e1 prev,
      Watch.toggleVideoInPlaylist_start (Watch.state e) pl e
      = (e1, Some prev) ->
      Watch.state (Watch.toggleVideoInPlaylist_settle prev (Rejected err) e1)
      = Watch.state e).
Proof.
  assert (Hshow : forall e', Watch.state (Watch.showError err e')
                             = Watch.state e').
  { intros e'. unfold Watch.showError.
    destruct (_ || _); reflexivity. }
  destruct e as [s calls toasts lt st nav]. simpl.
  split; [ | split].
  - intros e1 p. unfold Watch.handleToggleLike_start.
    destruct (Watch.videoId s); [ | discriminate].
    destruct (Watch.liking s) eqn:Hliking; [discriminate | ].
    intros [= <- <-]. unfold Watch.handleToggleLike_settle.
    simpl. rewrite Hshow. simpl.
    destruct s; simpl in *. now subst.
  - intros e1 p. unfold Watch.handleToggleSubscribe_start.
    destruct (Watch.channelId s); [ | discriminate].
    destruct (Watch.subscribing s) eqn:Hsub; [discriminate | ].
    intros [= <- <-]. unfold Watch.handleToggleSubscribe_settle.
    simpl. rewrite Hshow. simpl.
    destruct s; simpl in *. now subst.
  - intros pl e1 prev. unfold Watch.toggleVideoInPlaylist_start.
    destruct (Watch.videoId s); [ | discriminate].
    intros [= <- <-]. unfold Watch.toggleVideoInPlaylist_settle.
    rewrite Hshow. simpl. destruct s; reflexivity.
Qed.
End ToggleTheorems.

(** C2, amended, with the answer "Like deleted successfully". *)
Lemma like_toggle_reconciled_witness :
  let msg := "Like deleted successfully" in
  includes (toLowerCase msg) "deleted" = true /\
  includes (toLowerCase msg) "created" = false /\
  exists e1 p,
    Watch.handleToggleLike_start Samples.watchState Samples.watchEnv
    = (e1, Some p) /\
    Watch.liked (Watch.state e1) = true /\
    Watch.likesCount (Watch.state e1) = 6 /\
    let e2 :=
      @Watch.handleToggleLike_settle (fun html => html) p
        (Resolved (Some msg)) e1 in
    Watch.liked (Watch.state e2) = false /\
    Watch.likesCount (Watch.state e2) = 5.
Proof.
  intros msg.
  assert (Hdeleted : includes (toLowerCase msg) "deleted" = true)
    by reflexivity.
  assert (Hcreated : includes (toLowerCase msg) "created" = false)
    by reflexivity.
  split; [exact Hdeleted | split; [exact Hcreated | ]].
  destruct (@like_toggle_reconciled (fun html => html)
              Samples.watchState Samples.watchEnv "vid1" msg
              eq_refl eq_refl eq_refl eq_refl Hdeleted Hcreated)
    as (e1 & p & Hstart & Hliked & Hcount & Hfinal & Hfive & _).
  exists e1, p. repeat split; assumption.
Defined.

(** C3 on the sample Watch page: each of the three toggles starts,
    shows its optimistic state, and is undone by a network error. *)
Lemma optimistic_toggles_roll_back_witness :
  let e := Samples.watchEnv in
  let err := Samples.networkError in
  (exists e1 p,
      Watch.handleToggleLike_start (Watch.state e) e = (e1, Some p) /\
      Watch.liked (Watch.state e1) = true /\
      Watch.likesCount (Watch.state e1) = 6 /\
      Watch.state
        (@Watch.handleToggleLike_settle (fun html => html) p
           (Rejected err) e1)
      = Watch.state e) /\
  (exists e1 p,
      Watch.handleToggleSubscribe_start (Watch.state e) e = (e1, Some p) /\
      Watch.subscribed (Watch.state e1) = true /\
      Watch.state
        (@Watch.handleToggleSubscribe_settle (fun html => html) p
           (Rejected err) e1)
      = Watch.state e) /\
  (exists e1 prev,
      Watch.toggleVideoInPlaylist_start (Watch.state e) Samples.watchLater e
      = (e1, Some prev) /\
      map Watch.ApiPlaylist.videos (Watch.playlists (Watch.state e1))
      = [Some [Watch.VideoId "vid1"; Watch.VideoId "vid9";
               Watch.VideoId "vid7"]] /\
      Watch.state
        (@Watch.toggleVideoInPlaylist_settle (fun html => html) prev
           (Rejected err) e1)
      = Watch.state e).
Proof.
  intros e err.
  destruct (@optimistic_toggles_roll_back (fun html => html) e err)
    as (Hlike & Hsub & Hpl).
  split; [ | split].
  - eexists. eexists. split; [reflexivity | ].
    split; [reflexivity | ]. split; [reflexivity | ].
    apply Hlike. reflexivity.
  - eexists. eexists. split; [reflexivity | ].
    split; [reflexivity | ].
    apply Hsub. reflexivity.
  - eexists. eexists. split; [reflexivity | ].
    split; [reflexivity | ].
    apply (Hpl Samples.watchLater). reflexivity.
Defined.

(** * Further properties *)

(** ** Merging page after page *)

Section MergeMore.
Context {T : Type} `{Keyed T}.
Implicit Types (prev docs more : list T).

Lemma setAll_app docs more (m : JsMap.t T) :
  setAll (docs ++ more) m = setAll more (setAll docs m).
Proof. unfold setAll. apply fold_left_app. Qed.

(** X1: merging two pages one after the other gives the same
    collection as merging both pages at once. *)
Theorem mergeById_page_by_page prev docs more :
  mergeById (mergeById prev docs) more = mergeById prev (docs ++ more).
Proof.
  unfold mergeById at 1. unfold mergeById at 1.
  rewrite setAll_values.
  - unfold mergeById. now rewrite setAll_app.
  - apply wellKeyed_merged.
  - apply NoDup_keys_merged.
Qed.

(** X2: an empty page leaves a collection without repeated [_id]
    exactly as it is. *)
Theorem mergeById_empty_page prev :
  NoDup (map keyOf prev) -> mergeById prev [] = prev.
Proof.
  intros Hnd. unfold mergeById. simpl.
  rewrite setAll_seed by assumption.
  unfold JsMap.values. rewrite map_map. simpl. apply map_id.
Qed.
End MergeMore.

Lemma mergeById_empty_page_witness :
  NoDup (map keyOf Samples.pageOne) /\
  mergeById Samples.pageOne [] = Samples.pageOne.
Proof.
  assert (Hone : NoDup (map keyOf Samples.pageOne))
    by (repeat constructor; simpl; intuition discriminate).
  split; [exact Hone | ].
  apply (mergeById_empty_page Samples.pageOne Hone).
Defined.

(** ** The envelope shapes that are unwrapped *)

Section ShapesFound.
Import Json.
Local Open Scope js_scope.

(** X3: [extractPlaylists] returns the list found at [data.docs], at
    [data] itself, at [message.docs] when [data] is null or undefined,
    or the payload itself when it is a list; Home's guard returns the
    list at [data.docs]. *)
Theorem envelope_shapes_unwrapped (payload : value) (xs : list value) :
  (payload ?. "data" ?. "docs" = Arr xs ->
   extractPlaylists payload = Normal xs /\
   homeDocs payload = Normal xs) /\
  (payload ?. "data" = Arr xs -> extractPlaylists payload = Normal xs) /\
  (payload ?. "data" = Undefined \/ payload ?. "data" = Null ->
   payload ?. "message" ?. "docs" = Arr xs ->
   extractPlaylists payload = Normal xs) /\
  (payload = Arr xs -> extractPlaylists payload = Normal xs).
Proof.
  split; [ | split; [ | split]].
  - intros Hdocs. split.
    + unfold extractPlaylists.
      destruct (payload ?. "data") as [ | | | | | | fs] eqn:Hdata;
        try discriminate.
      simpl nullish. rewrite Hdocs. reflexivity.
    + unfold homeDocs. rewrite Hdocs. simpl.
      rewrite member_when_array by now rewrite Hdocs.
      simpl. now rewrite Hdocs.
  - intros Hdata. unfold extractPlaylists. rewrite Hdata. reflexivity.
  - intros Hnull Hdocs. unfold extractPlaylists.
    destruct (payload ?. "message") as [ | | | | | | fs] eqn:Hmsg;
      try discriminate.
    destruct Hnull as [-> | ->]; simpl nullish; rewrite Hdocs; reflexivity.
  - intros ->. reflexivity.
Qed.
End ShapesFound.

Lemma envelope_shapes_unwrapped_witness :
  let ok := Json.Obj [("data",
              Json.Obj [("docs", Json.Arr [Json.Str "a"; Json.Str "b"])])] in
  let viaMessage :=
    Json.Obj [("data", Json.Null);
              ("message", Json.Obj [("docs", Json.Arr [Json.Str "c"])])] in
  Json.extractPlaylists ok = Json.Normal [Json.Str "a"; Json.Str "b"] /\
  Json.extractPlaylists viaMessage = Json.Normal [Json.Str "c"].
Proof.
  intros ok viaMessage. split.
  - destruct (envelope_shapes_unwrapped ok [Json.Str "a"; Json.Str "b"])
      as (Hdocs & _).
    apply Hdocs. reflexivity.
  - destruct (envelope_shapes_unwrapped viaMessage [Json.Str "c"])
      as (_ & _ & Hmessage & _).
    apply Hmessage; [right | ]; reflexivity.
Defined.

(** ** One request at a time *)

Section SingleFlight.
Context `{HtmlErrorPages}.

Lemma Home_fetchPage_start_spec targetPage append e :
  (Home.lockRef e = true /\
   Home.fetchPage_start targetPage append e = (e, None)) \/
  (Home.lockRef e = false /\
   exists e' p,
     Home.fetchPage_start targetPage append e = (e', Some p) /\
     Home.lockRef e' = true /\
     Home.requests e' =
       (Home.requests e ++
        [{| Home.req_page := targetPage;
            Home.req_limit := Home.LIMIT |}])%list).
Proof.
  unfold Home.fetchPage_start. destruct (Home.lockRef e) eqn:Hlock.
  - now left.
  - right. split; [reflexivity | ].
    eexists. eexists. split; [reflexivity | ].
    destruct append; split; reflexivity.
Qed.

Lemma Home_onIntersect_spec c b e :
  Home.onIntersect c b e = (e, None) \/
  Home.onIntersect c b e = Home.fetchPage_start (Home.page c + 1) true e.
Proof.
  unfold Home.onIntersect.
  destruct (negb b); [now left | ].
  destruct (negb (Home.hasNextPage c)); [now left | ].
  destruct (Home.loadingFirst c || Home.loadingMore c); [now left | ].
  destruct (Home.lockRef e); [now left | now right].
Qed.

Lemma Home_settle_unlocks p o e :
  Home.lockRef (Home.fetchPage_settle p o e) = false /\
  Home.requests (Home.fetchPage_settle p o e) = Home.requests e.
Proof.
  unfold Home.fetchPage_settle.
  destruct o; destruct (Home.append p); split; reflexivity.
Qed.

Lemma Home_invariant_started s r :
  HomeRun.invariant s ->
  (r = (HomeRun.env s, None) \/
   exists tp ap, r = Home.fetchPage_start tp ap (HomeRun.env s)) ->
  HomeRun.invariant (HomeRun.started s r).
Proof.
  intros [Hlock Hcount] Hr.
  assert (Hsame :
    HomeRun.invariant (HomeRun.started s (HomeRun.env s, None))).
  { split; simpl; assumption. }
  destruct Hr as [-> | (tp & ap & ->)]; [exact Hsame | ].
  destruct (Home_fetchPage_start_spec tp ap (HomeRun.env s))
    as [[_ ->] | (Hfree & e' & p & -> & Hheld & Hreq)]; [exact Hsame | ].
  destruct Hlock as [[Hnone _] | (q & _ & Hq)]; [ | congruence].
  split; simpl.
  - right. exists p. rewrite Hnone. split; [reflexivity | assumption].
  - rewrite Hreq, Hnone, length_app, Hcount, Hnone. simpl. lia.
Qed.

Lemma Home_invariant_step s ev :
  HomeRun.invariant s -> HomeRun.invariant (HomeRun.step s ev).
Proof.
  intros Hinv. destruct ev as [ | c b | o]; simpl.
  - apply Home_invariant_started; [assumption | right; eauto].
  - apply Home_invariant_started; [assumption | ].
    destruct (Home_onIntersect_spec c b (HomeRun.env s)) as [-> | ->];
      [now left | right; eauto].
  - destruct Hinv as [Hlock Hcount].
    destruct Hlock as [[Hnone Hfree] | (p & Hone & Hheld)].
    + rewrite Hnone. split; [left; now rewrite Hnone | assumption].
    + rewrite Hone.
      destruct (Home_settle_unlocks p o (HomeRun.env s)) as [Hfree Hreq].
      split; cbn [HomeRun.env HomeRun.inflight HomeRun.settled].
      * now left.
      * rewrite Hreq, Hcount, Hone. simpl. lia.
Qed.

Lemma Home_invariant_run evs : forall s,
  HomeRun.invariant s -> HomeRun.invariant (fold_left HomeRun.step evs s).
Proof.
  induction evs as [|ev evs IH]; intros s Hinv; [assumption | ].
  simpl. apply IH. now apply Home_invariant_step.
Qed.

(** X4: whatever callbacks Home receives, in whatever order and from
    whatever render (mount effect, observer callbacks, responses and
    failures), at most one request is in flight, [lockRef] is set
    exactly while there is one, and every request issued has either
    settled or is the one in flight. *)
Theorem Home_single_flight (evs : list HomeRun.Event) :
  let s := HomeRun.run evs in
  (List.length (HomeRun.inflight s) <= 1)%nat /\
  (Home.lockRef (HomeRun.env s) = true <-> HomeRun.inflight s <> []) /\
  List.length (Home.requests (HomeRun.env s)) =
    (HomeRun.settled s + List.length (HomeRun.inflight s))%nat.
Proof.
  intros s.
  assert (Hinv : HomeRun.invariant s).
  { apply Home_invariant_run.
    split; [left; split; reflexivity | reflexivity]. }
  destruct Hinv as [[[Hnone Hfree] | (p & Hone & Hheld)] Hcount].
  - rewrite Hnone in *. split; [simpl; lia | split; [ | assumption]].
    split; intros Hx; congruence.
  - rewrite Hone in *. split; [simpl; lia | split; [ | assumption]].
    split; intros Hx; [discriminate | assumption].
Qed.
End SingleFlight.

Section SingleFlightThreads.
Context `{HtmlErrorPages}.

Lemma Threads_fetchPage_start_spec targetPage append e :
  (Threads.loadingRef e = true /\
   Threads.fetchPage_start targetPage append e = (e, None)) \/
  (Threads.loadingRef e = false /\
   exists e' p,
     Threads.fetchPage_start targetPage append e = (e', Some p) /\
     Threads.loadingRef e' = true /\
     List.length (Threads.requests e') =
       S (List.length (Threads.requests e))).
Proof.
  unfold Threads.fetchPage_start. destruct (Threads.loadingRef e) eqn:Hlock.
  - now left.
  - right. split; [reflexivity | ].
    eexists. eexists. split; [reflexivity | ].
    destruct append; split; try reflexivity;
      simpl; rewrite length_app; simpl; lia.
Qed.

Lemma Threads_onIntersect_spec c b e :
  Threads.onIntersect c b e = (e, None) \/
  Threads.onIntersect c b e =
    Threads.fetchPage_start (Threads.page c + 1) true e.
Proof.
  unfold Threads.onIntersect.
  destruct (negb b); [now left | ].
  destruct (_ && _ && _ && _); [now right | now left].
Qed.

Lemma Threads_settle_unlocks p o e :
  Threads.loadingRef (Threads.fetchPage_settle p o e) = false /\
  Threads.requests (Threads.fetchPage_settle p o e) = Threads.requests e.
Proof.
  unfold Threads.fetchPage_settle.
  destruct o; destruct (Threads.append p); split; reflexivity.
Qed.

Lemma Threads_invariant_started s r :
  ThreadsRun.invariant s ->
  (r = (ThreadsRun.env s, None) \/
   exists tp ap, r = Threads.fetchPage_start tp ap (ThreadsRun.env s)) ->
  ThreadsRun.invariant (ThreadsRun.started s r).
Proof.
  intros [Hlock Hcount] Hr.
  assert (Hsame :
    ThreadsRun.invariant (ThreadsRun.started s (ThreadsRun.env s, None))).
  { split; simpl; assumption. }
  destruct Hr as [-> | (tp & ap & ->)]; [exact Hsame | ].
  destruct (Threads_fetchPage_start_spec tp ap (ThreadsRun.env s))
    as [[_ ->] | (Hfree & e' & p & -> & Hheld & Hreq)]; [exact Hsame | ].
  destruct Hlock as [(Hnone & _ & Hidle) | (q & a & _ & Hq & _)];
    [ | congruence].
  split; simpl.
  - right. exists p, false. rewrite Hnone.
    split; [reflexivity | split; [assumption | congruence]].
  - rewrite Hreq, Hnone, Hcount, Hnone. simpl. lia.
Qed.

Lemma Threads_invariant_step s ev :
  ThreadsRun.invariant s -> ThreadsRun.invariant (ThreadsRun.step s ev).
Proof.
  intros Hinv. destruct ev as [ | c b | c_refreshing | o]; simpl.
  - apply Threads_invariant_started; [assumption | right; eauto].
  - apply Threads_invariant_started; [assumption | ].
    destruct (Threads_onIntersect_spec c b (ThreadsRun.env s)) as [-> | ->];
      [now left | right; eauto].
  - unfold ThreadsRun.handleRefresh.
    destruct c_refreshing; [assumption | ].
    destruct Hinv as [Hlock Hcount].
    destruct (Threads_fetchPage_start_spec 1 false (ThreadsRun.env s))
      as [[Hheld ->] | (Hfree & e' & p & -> & Hheld & Hreq)].
    + cbn [fst snd]. split; cbn; [ | assumption].
      destruct Hlock as [(Hnone & Hfree & _) | (q & a & Hone & _ & _)];
        [congruence | ].
      right. exists q, a. split; [assumption | split; [assumption | ]].
      discriminate.
    + cbn [fst snd].
      destruct Hlock as [(Hnone & _ & _) | (q & a & _ & Hq & _)];
        [ | congruence].
      split; cbn.
      * right. exists p, true. rewrite Hnone. auto.
      * rewrite Hreq, Hnone, Hcount, Hnone. simpl. lia.
  - destruct Hinv as [Hlock Hcount].
    destruct Hlock as [(Hnone & Hfree & Hidle) | (p & a & Hone & Hheld & Ha)].
    + rewrite Hnone. split; [left; now rewrite Hnone | assumption].
    + rewrite Hone.
      destruct (Threads_settle_unlocks p o (ThreadsRun.env s))
        as [Hfree Hreq].
      split; cbn [ThreadsRun.env ThreadsRun.inflight ThreadsRun.settled
                  ThreadsRun.refreshing].
      * left. split; [reflexivity | split; [assumption | ]].
        destruct a; [reflexivity | ].
        destruct (ThreadsRun.refreshing s); [ | reflexivity].
        symmetry. now apply Ha.
      * rewrite Hreq, Hcount, Hone. simpl. lia.
Qed.

Lemma Threads_invariant_run evs : forall s,
  ThreadsRun.invariant s ->
  ThreadsRun.invariant (fold_left ThreadsRun.step evs s).
Proof.
  induction evs as [|ev evs IH]; intros s Hinv; [assumption | ].
  simpl. apply IH. now apply Threads_invariant_step.
Qed.

(** X5: whatever callbacks Threads receives, in whatever order and
    from whatever render (mount effect, observer callbacks, the refresh
    button, responses and failures), at most one request is in flight,
    [loadingRef] is set exactly while there is one, every request
    issued has settled or is the one in flight, and [refreshing] is on
    only while the request that [handleRefresh] awaits is in flight. *)
Theorem Threads_single_flight (evs : list ThreadsRun.Event) :
  let s := ThreadsRun.run evs in
  (List.length (ThreadsRun.inflight s) <= 1)%nat /\
  (Threads.loadingRef (ThreadsRun.env s) = true <->
   ThreadsRun.inflight s <> []) /\
  List.length (Threads.requests (ThreadsRun.env s)) =
    (ThreadsRun.settled s + List.length (ThreadsRun.inflight s))%nat /\
  (ThreadsRun.refreshing s = true ->
   exists p, ThreadsRun.inflight s = [(p, true)]).
Proof.
  intros s.
  assert (Hinv : ThreadsRun.invariant s).
  { apply Threads_invariant_run.
    split; [left; repeat split | reflexivity]. }
  destruct Hinv
    as [[(Hnone & Hfree & Hidle) | (p & a & Hone & Hheld & Ha)] Hcount].
  - rewrite Hnone in *. split; [simpl; lia | ].
    split; [split; intros Hx; congruence | ].
    split; [assumption | congruence].
  - rewrite Hone in *. split; [simpl; lia | ].
    split; [split; intros Hx; [discriminate | assumption] | ].
    split; [assumption | ].
    intros Hr. exists p. now rewrite (Ha Hr).
Qed.
End SingleFlightThreads.

(** ** When paging goes on and when it stops *)

Section PagingMore.
Context `{HtmlErrorPages}.

(** X6: once a response of Home does not report [hasNextPage] as true
    (false, or the field missing), the observer of the next render
    issues no further request. *)
Theorem Home_paging_stops p data e b :
  match data with
  | Some d => Home.Res.hasNextPage d <> Some true
  | None => True
  end ->
  let e' := Home.fetchPage_settle p (Resolved data) e in
  Home.hasNextPage (Home.state e') = false /\
  Home.onIntersect (Home.state e') b e' = (e', None).
Proof.
  intros Hlast e'.
  assert (Hstop : Home.hasNextPage (Home.state e') = false).
  { subst e'. unfold Home.fetchPage_settle.
    destruct data as [d|].
    - destruct (Home.Res.hasNextPage d) as [[|]|];
        [congruence | | ]; destruct (Home.append p); reflexivity.
    - destruct (Home.append p); reflexivity. }
  split; [assumption | ].
  unfold Home.onIntersect. rewrite Hstop.
  destruct (negb b); reflexivity.
Qed.

(** X7: a load of the next page that succeeds with a response without
    a page number moves Home's page counter up by exactly one, and
    with a page number to that number. *)
Theorem Home_page_after_success e e1 p d :
  Home.onIntersect (Home.state e) true e = (e1, Some p) ->
  Home.page (Home.state (Home.fetchPage_settle p (Resolved (Some d)) e1)) =
    match Home.Res.page d with
    | Some n => n
    | None => Home.page (Home.state e) + 1
    end.
Proof.
  unfold Home.onIntersect, Home.fetchPage_start. simpl.
  destruct (negb (Home.hasNextPage (Home.state e))); [discriminate | ].
  destruct (Home.loadingFirst (Home.state e) || _); [discriminate | ].
  destruct (Home.lockRef e); [discriminate | ].
  intros [= <- <-]. simpl.
  destruct (Home.Res.page d); reflexivity.
Qed.

(** X8: in SuggestedVideos a second "Load more" from the render that
    follows the first is dropped, and whichever way the request
    settles both loading flags are down again. *)
Theorem SuggestedVideos_guard_across_renders pr c e e1 :
  SuggestedVideos.onLoadMore pr c e = (e1, true) ->
  SuggestedVideos.onLoadMore pr (SuggestedVideos.state e1) e1 = (e1, false) /\
  forall o,
    let e2 := SuggestedVideos.fetchPage_settle o e1 in
    SuggestedVideos.loading (SuggestedVideos.state e2) = false /\
    SuggestedVideos.loadingMore (SuggestedVideos.state e2) = false.
Proof.
  unfold SuggestedVideos.onLoadMore at 1.
  unfold SuggestedVideos.fetchPage_start.
  destruct (_ || _ || _); [discriminate | ].
  destruct (String.eqb _ ""); [discriminate | ].
  intros [= <-]. split.
  - unfold SuggestedVideos.onLoadMore.
    destruct (SuggestedVideos.page c + 1 =? 1); simpl;
      rewrite ?orb_true_r; reflexivity.
  - intros o. destruct o; split; reflexivity.
Qed.
End PagingMore.

Lemma Home_paging_stops_witness :
  let empty :=
    Some {| Home.Res.docs := Some []; Home.Res.page := Some 1;
            Home.Res.hasNextPage := Some false |} in
  let mounted := @HomeRun.run (fun html => html) [HomeRun.Mount] in
  let p := {| Home.targetPage := 1; Home.append := false |} in
  let e' :=
    @Home.fetchPage_settle (fun html => html) p (Resolved empty)
      (HomeRun.env mounted) in
  Home.items (Home.state e') = [] /\
  Home.onIntersect (Home.state e') true e' = (e', None).
Proof.
  intros empty mounted p e'. split; [reflexivity | ].
  apply (@Home_paging_stops (fun html => html) p empty
           (HomeRun.env mounted) true).
  discriminate.
Defined.

Lemma Home_page_after_success_witness :
  let e :=
    {| Home.state :=
         {| Home.items := Samples.pageOne; Home.page := 1;
            Home.hasNextPage := true; Home.loadingFirst := false;
            Home.loadingMore := false |};
       Home.lockRef := false; Home.requests := []; Home.toasts := [] |} in
  let d := {| Home.Res.docs := Some Samples.pageTwo; Home.Res.page := None;
              Home.Res.hasNextPage := Some false |} in
  exists e1 p,
    Home.onIntersect (Home.state e) true e = (e1, Some p) /\
    Home.page
      (Home.state
         (@Home.fetchPage_settle (fun html => html) p (Resolved (Some d)) e1))
    = 2.
Proof.
  intros e d. eexists. eexists. split; [reflexivity | ].
  apply (@Home_page_after_success (fun html => html) e _ _ d). reflexivity.
Defined.

Lemma SuggestedVideos_guard_across_renders_witness :
  let first :=
    SuggestedVideos.onLoadMore Samples.suggestedProps
      Samples.suggestedState Samples.suggestedEnv in
  snd first = true /\
  SuggestedVideos.onLoadMore Samples.suggestedProps
    (SuggestedVideos.state (fst first)) (fst first) = (fst first, false).
Proof.
  intros first. split; [reflexivity | ].
  apply (@SuggestedVideos_guard_across_renders (fun html => html)
           Samples.suggestedProps Samples.suggestedState
           Samples.suggestedEnv (fst first)).
  reflexivity.
Defined.

(** ** The toggles, whatever the server answers *)

Section TogglesMore.
Context `{HtmlErrorPages}.

Lemma Watch_showError_state err e :
  Watch.state (Watch.showError err e) = Watch.state e.
Proof. unfold Watch.showError. destruct (_ || _); reflexivity. Qed.

(** X9: after the like request has resolved, [liked] is what the
    message says ("created": liked, else "deleted": not liked, else the
    optimistic guess), and in every case the count is the count before
    the click, plus one if the video ends liked, minus one if it began
    liked, never below zero; the in-flight flag is down. *)
Theorem like_settles_to_server_word c e e1 p m :
  Watch.handleToggleLike_start c e = (e1, Some p) ->
  let lower := toLowerCase (orElse m "") in
  let e2 := Watch.handleToggleLike_settle p (Resolved m) e1 in
  Watch.liked (Watch.state e2) =
    (if includes lower "created" then true
     else if includes lower "deleted" then false
     else negb (Watch.liked c)) /\
  Watch.likesCount (Watch.state e2) =
    Z.max 0 (Watch.likesCount c
             + (if Watch.liked (Watch.state e2) then 1 else 0)
             - (if Watch.liked c then 1 else 0)) /\
  0 <= Watch.likesCount (Watch.state e2) /\
  Watch.liking (Watch.state e2) = false.
Proof.
  unfold Watch.handleToggleLike_start.
  destruct (Watch.videoId c); [ | discriminate].
  destruct (Watch.liking c); [discriminate | ].
  intros [= <- <-]. cbv zeta.
  set (lower := toLowerCase (orElse m "")).
  unfold Watch.handleToggleLike_settle. fold lower.
  destruct (includes lower "created"), (includes lower "deleted"),
    (Watch.liked c); simpl; repeat split; lia.
Qed.

(** X10: after the subscribe request has resolved, [subscribed] is
    false when the message mentions "unsub" (so "Unsubscribed" is not
    taken for "subscribed"), true when it mentions "subscribed"
    without "unsub", and the optimistic guess otherwise. *)
Theorem subscribe_settles_to_server_word c e e1 p m :
  Watch.handleToggleSubscribe_start c e = (e1, Some p) ->
  let lower := toLowerCase (orElse m "") in
  let e2 := Watch.handleToggleSubscribe_settle p (Resolved m) e1 in
  Watch.subscribed (Watch.state e2) =
    (if includes lower "unsub" then false
     else if includes lower "subscribed" then true
     else negb (Watch.subscribed c)) /\
  Watch.subscribing (Watch.state e2) = false.
Proof.
  unfold Watch.handleToggleSubscribe_start.
  destruct (Watch.channelId c); [ | discriminate].
  destruct (Watch.subscribing c); [discriminate | ].
  intros [= <- <-]. cbv zeta.
  unfold Watch.handleToggleSubscribe_settle. simpl.
  split; reflexivity.
Qed.

(** X11: while a like or a subscription is in flight, a click from the
    render that shows it is dropped: no state change, no second
    call. *)
Theorem toggles_dropped_while_in_flight c e :
  (forall e1 p,
      Watch.handleToggleLike_start c e = (e1, Some p) ->
      Watch.handleToggleLike_start (Watch.state e1) e1 = (e1, None)) /\
  (forall e1 p,
      Watch.handleToggleSubscribe_start c e = (e1, Some p) ->
      Watch.handleToggleSubscribe_start (Watch.state e1) e1 = (e1, None)).
Proof.
  split; intros e1 p.
  - unfold Watch.handleToggleLike_start at 1.
    destruct (Watch.videoId c); [ | discriminate].
    destruct (Watch.liking c); [discriminate | ].
    intros [= <- <-]. unfold Watch.handleToggleLike_start. simpl.
    destruct (Watch.videoId _); reflexivity.
  - unfold Watch.handleToggleSubscribe_start at 1.
    destruct (Watch.channelId c); [ | discriminate].
    destruct (Watch.subscribing c); [discriminate | ].
    intros [= <- <-]. unfold Watch.handleToggleSubscribe_start. simpl.
    destruct (Watch.channelId _); reflexivity.
Qed.

End TogglesMore.

Lemma like_settles_to_server_word_witness :
  exists e1 p,
    Watch.handleToggleLike_start Samples.watchState Samples.watchEnv
    = (e1, Some p) /\
    let e2 :=
      @Watch.handleToggleLike_settle (fun html => html) p
        (Resolved (Some "Like created")) e1 in
    Watch.liked (Watch.state e2) = true /\
    Watch.likesCount (Watch.state e2) = 6.
Proof.
  eexists. eexists. split; [reflexivity | ].
  destruct (@like_settles_to_server_word (fun html => html)
              Samples.watchState Samples.watchEnv _ _
              (Some "Like created") eq_refl)
    as (Hliked & Hcount & _).
  split; [exact Hliked | exact Hcount].
Defined.

Lemma subscribe_settles_to_server_word_witness :
  exists e1 p,
    Watch.handleToggleSubscribe_start Samples.watchState Samples.watchEnv
    = (e1, Some p) /\
    Watch.subscribed (Watch.state e1) = true /\
    Watch.subscribed
      (Watch.state
         (@Watch.handleToggleSubscribe_settle (fun html => html) p
            (Resolved (Some "Unsubscribed successfully")) e1))
    = false.
Proof.
  eexists. eexists. split; [reflexivity | ]. split; [reflexivity | ].
  destruct (@subscribe_settles_to_server_word (fun html => html)
              Samples.watchState Samples.watchEnv _ _
              (Some "Unsubscribed successfully") eq_refl)
    as (Hsub & _).
  exact Hsub.
Defined.

Lemma toggles_dropped_while_in_flight_witness :
  let first :=
    Watch.handleToggleLike_start Samples.watchState Samples.watchEnv in
  snd first <> None /\
  Watch.handleToggleLike_start (Watch.state (fst first)) (fst first)
  = (fst first, None).
Proof.
  intros first. split; [discriminate | ].
  destruct (toggles_dropped_while_in_flight
              Samples.watchState Samples.watchEnv) as (Hlike & _).
  eapply Hlike. reflexivity.
Defined.


(** ** Playlist membership *)

Section PlaylistMore.

Lemma getIds_filter videos :
  Watch.getIdsFromPlaylistVideos videos =
  match videos with
  | None => []
  | Some vs => filter WatchPage.idKept (map Watch.videoRefId vs)
  end.
Proof. destruct videos; reflexivity. Qed.

Lemma getIds_of_ids (ids : list string) :
  Watch.getIdsFromPlaylistVideos (Some (map Watch.VideoId ids)) =
  filter WatchPage.idKept ids.
Proof.
  rewrite getIds_filter, map_map. simpl. now rewrite map_id.
Qed.

Lemma filter_kept_getIds videos :
  filter WatchPage.idKept (Watch.getIdsFromPlaylistVideos videos) =
  Watch.getIdsFromPlaylistVideos videos.
Proof.
  rewrite getIds_filter. destruct videos as [vs|]; [ | reflexivity].
  induction (map Watch.videoRefId vs) as [|x xs IH]; simpl; [reflexivity | ].
  destruct (WatchPage.idKept x) eqn:Hx; simpl; rewrite ?Hx, IH; reflexivity.
Qed.

(** X13: the ids read off a playlist never include the empty string,
    "undefined" or "null", and writing them back as the playlist's
    videos and reading again gives the same ids. *)
Theorem playlist_ids_clean videos :
  (forall x, In x (Watch.getIdsFromPlaylistVideos videos) ->
             x <> "" /\ x <> "undefined" /\ x <> "null") /\
  Watch.getIdsFromPlaylistVideos
    (Some (map Watch.VideoId (Watch.getIdsFromPlaylistVideos videos)))
  = Watch.getIdsFromPlaylistVideos videos.
Proof.
  split.
  - intros x Hin. rewrite getIds_filter in Hin.
    destruct videos as [vs|]; [ | contradiction].
    apply filter_In in Hin. destruct Hin as [_ Hkept].
    unfold WatchPage.idKept in Hkept.
    apply andb_prop in Hkept. destruct Hkept as [Hkept Hnull].
    apply andb_prop in Hkept. destruct Hkept as [Hempty Hundef].
    repeat split; intros ->; discriminate.
  - rewrite getIds_of_ids. apply filter_kept_getIds.
Qed.

Lemma videoId_nonempty c vid : Watch.videoId c = Some vid -> vid <> "".
Proof.
  unfold Watch.videoId. destruct (Watch.video c) as [v|]; [ | discriminate].
  destruct (String.eqb_spec (Watch.ApiVideo._id v) ""); [discriminate | ].
  intros [= <-]. assumption.
Qed.

Lemma existsb_eqb_In (x : string) (l : list string) :
  existsb (String.eqb x) l = true <-> In x l.
Proof.
  rewrite existsb_exists. split.
  - intros (y & Hin & Heq). apply String.eqb_eq in Heq. now subst.
  - intros Hin. exists x. split; [assumption | apply String.eqb_refl].
Qed.

(** X14: a click on a playlist row flips, at once, the membership of
    the video in every playlist with that [_id], leaves the other
    playlists as they are, keeps the length and order of the list, and
    issues the matching call: remove when the row showed the video as
    a member, add otherwise.  The video's [_id] must not be the text
    "undefined" or "null", which the id filter drops. *)
Theorem playlist_toggle_flips c e pl vid e1 prev :
  Watch.videoId c = Some vid ->
  vid <> "undefined" -> vid <> "null" ->
  Watch.toggleVideoInPlaylist_start c pl e = (e1, Some prev) ->
  prev = Watch.playlists c /\
  (forall i x,
      nth_error (Watch.playlists (Watch.state e)) i = Some x ->
      exists x',
        nth_error (Watch.playlists (Watch.state e1)) i = Some x' /\
        Watch.ApiPlaylist._id x' = Watch.ApiPlaylist._id x /\
        if String.eqb (Watch.ApiPlaylist._id x) (Watch.ApiPlaylist._id pl)
        then WatchPage.isVideoInPlaylist c x' =
             negb (WatchPage.isVideoInPlaylist c pl)
        else x' = x) /\
  List.length (Watch.playlists (Watch.state e1)) =
    List.length (Watch.playlists (Watch.state e)) /\
  Watch.calls e1 =
    (Watch.calls e ++
     [if WatchPage.isVideoInPlaylist c pl
      then Watch.removeVideoFromPlaylist (Watch.ApiPlaylist._id pl) vid
      else Watch.addVideoToPlaylist (Watch.ApiPlaylist._id pl) vid])%list.
Proof.
  intros Hvid Hundef Hnull.
  assert (Hkept : WatchPage.idKept vid = true).
  { unfold WatchPage.idKept.
    pose proof (videoId_nonempty c vid Hvid) as Hne.
    destruct (String.eqb_spec vid ""); [contradiction | ].
    destruct (String.eqb_spec vid "undefined"); [contradiction | ].
    destruct (String.eqb_spec vid "null"); [contradiction | ].
    reflexivity. }
  unfold Watch.toggleVideoInPlaylist_start, WatchPage.isVideoInPlaylist.
  rewrite Hvid. intros [= <- <-]. simpl.
  split; [reflexivity | ]. split; [ | split].
  - intros i x Hx. rewrite nth_error_map, Hx.
    cbn [option_map]. eexists. split; [reflexivity | ].
    destruct (String.eqb (Watch.ApiPlaylist._id x) (Watch.ApiPlaylist._id pl));
      cbn [negb Watch.ApiPlaylist._id Watch.ApiPlaylist.videos];
      [ | split; reflexivity].
    split; [reflexivity | ].
    rewrite getIds_of_ids.
    destruct (existsb (String.eqb vid)
                (Watch.getIdsFromPlaylistVideos (Watch.ApiPlaylist.videos pl)));
      cbn [negb].
    + destruct (existsb _ _) eqn:Hin; [ | reflexivity].
      apply existsb_eqb_In in Hin.
      apply filter_In in Hin. destruct Hin as [Hin _].
      apply filter_In in Hin. destruct Hin as [_ Hin].
      now rewrite String.eqb_refl in Hin.
    + cbn [filter]. rewrite Hkept. cbn [existsb].
      now rewrite String.eqb_refl.
  - apply length_map.
  - reflexivity.
Qed.
End PlaylistMore.

Lemma playlist_toggle_flips_witness :
  exists e1 prev,
    Watch.toggleVideoInPlaylist_start Samples.watchState Samples.watchLater
      Samples.watchEnv = (e1, Some prev) /\
    WatchPage.isVideoInPlaylist Samples.watchState Samples.watchLater
    = false /\
    Watch.calls e1 = [Watch.addVideoToPlaylist "pl1" "vid1"] /\
    exists x',
      nth_error (Watch.playlists (Watch.state e1)) 0 = Some x' /\
      WatchPage.isVideoInPlaylist Samples.watchState x' = true.
Proof.
  eexists. eexists. split; [reflexivity | ]. split; [reflexivity | ].
  assert (Hundef : "vid1" <> "undefined") by discriminate.
  assert (Hnull : "vid1" <> "null") by discriminate.
  destruct (playlist_toggle_flips Samples.watchState Samples.watchEnv
              Samples.watchLater "vid1" _ _ eq_refl Hundef Hnull eq_refl)
    as (_ & Hrows & _ & Hcalls).
  split; [exact Hcalls | ].
  destruct (Hrows 0%nat Samples.watchLater eq_refl) as (x' & Hnth & _ & Hin).
  exists x'. split; [exact Hnth | exact Hin].
Defined.

(** ** Posting, editing and deleting comments *)

Section CommentsMore.

(** X15: after a comment has been deleted on the server, no comment
    with that [_id] is left in the list, every other comment is still
    there, the counter has gone down by one but not below zero, and
    "Comment deleted" is shown. *)
Theorem comment_removed (commentId : string) (e : CommentsEditing.Env) :
  let e2 := CommentsEditing.remove_settle commentId (Resolved tt) e in
  (forall c,
      In c (CommentsEditing.items e2) <->
      In c (CommentsEditing.items e) /\ CommentsSection._id c <> commentId) /\
  CommentsEditing.totalDocs e2 = Z.max 0 (CommentsEditing.totalDocs e - 1) /\
  0 <= CommentsEditing.totalDocs e2 /\
  CommentsEditing.successes e2 =
    (CommentsEditing.successes e ++ ["Comment deleted"])%list.
Proof.
  intros e2. split; [ | split; [reflexivity | split; [ | reflexivity]]].
  - intros c. subst e2. unfold CommentsEditing.items. simpl.
    rewrite filter_In.
    destruct (String.eqb_spec (CommentsSection._id c) commentId);
      simpl; intuition congruence.
  - subst e2. unfold CommentsEditing.totalDocs. simpl. lia.
Qed.

(** X16: posting a comment puts it on top of the list and raises the
    counter by one; deleting that comment again gives back the list
    and the counter from before, provided its [_id] is new to the list
    and the counter was not negative. *)
Theorem comment_added_then_removed
  (created : CommentsSection.CommentItem) (e : CommentsEditing.Env) :
  (forall c, In c (CommentsEditing.items e) ->
             CommentsSection._id c <> CommentsSection._id created) ->
  0 <= CommentsEditing.totalDocs e ->
  let e1 := CommentsEditing.onSubmit_settle (Resolved created) e in
  let e2 :=
    CommentsEditing.remove_settle (CommentsSection._id created)
      (Resolved tt) e1 in
  CommentsEditing.items e1 = created :: CommentsEditing.items e /\
  CommentsEditing.totalDocs e1 = CommentsEditing.totalDocs e + 1 /\
  CommentsEditing.text e1 = "" /\
  CommentsEditing.items e2 = CommentsEditing.items e /\
  CommentsEditing.totalDocs e2 = CommentsEditing.totalDocs e.
Proof.
  intros Hnew Hcount e1 e2.
  split; [reflexivity | ]. split; [reflexivity | ]. split; [reflexivity | ].
  subst e2 e1. unfold CommentsEditing.items, CommentsEditing.totalDocs in *.
  simpl. rewrite String.eqb_refl. simpl. split; [ | lia].
  apply forallb_filter_id. apply forallb_forall. intros c Hin.
  apply Hnew in Hin.
  destruct (String.eqb_spec (CommentsSection._id c)
                            (CommentsSection._id created));
    [contradiction | reflexivity].
Qed.

(** X17: saving an edit swaps in the server's version at the place of
    the edited comment: when that version carries the [_id] that was
    edited, the list keeps its length and the order of its [_id]s, the
    counter is untouched, and the edit box is closed. *)
Theorem comment_edited_in_place
  (commentId : string) (updated : CommentsSection.CommentItem)
  (e : CommentsEditing.Env) :
  CommentsSection._id updated = commentId ->
  let e2 := CommentsEditing.saveEdit_settle commentId (Resolved updated) e in
  map CommentsSection._id (CommentsEditing.items e2) =
    map CommentsSection._id (CommentsEditing.items e) /\
  (forall c, In c (CommentsEditing.items e2) ->
             CommentsSection._id c = commentId -> c = updated) /\
  CommentsEditing.totalDocs e2 = CommentsEditing.totalDocs e /\
  CommentsEditing.editingId e2 = None /\
  CommentsEditing.editText e2 = "".
Proof.
  intros Hid e2. subst e2. unfold CommentsEditing.items. simpl.
  split; [ | split; [ | repeat split]].
  - rewrite map_map. apply List.map_ext. intros c.
    destruct (String.eqb_spec (CommentsSection._id c) commentId);
      congruence.
  - intros c Hin Hc. apply in_map_iff in Hin.
    destruct Hin as (c0 & Hc0 & _).
    destruct (String.eqb_spec (CommentsSection._id c0) commentId);
      congruence.
Qed.

(** X18: when posting, saving an edit or deleting fails, the list and
    the counter are as before and one error toast is added; the failed
    post keeps the draft text and lowers [posting], the failed edit
    keeps the edit box open with its text. *)
Theorem comment_failures_change_nothing
  (commentId : string) (err : ApiError) (e : CommentsEditing.Env) :
  let failures :=
    [CommentsEditing.onSubmit_settle (Rejected err) e;
     CommentsEditing.saveEdit_settle commentId (Rejected err) e;
     CommentsEditing.remove_settle commentId (Rejected err) e] in
  (forall e2, In e2 failures ->
     CommentsEditing.items e2 = CommentsEditing.items e /\
     CommentsEditing.totalDocs e2 = CommentsEditing.totalDocs e /\
     CommentsEditing.text e2 = CommentsEditing.text e /\
     CommentsEditing.editingId e2 = CommentsEditing.editingId e /\
     CommentsEditing.editText e2 = CommentsEditing.editText e /\
     CommentsEditing.successes e2 = CommentsEditing.successes e /\
     List.length (CommentsSection.toasts (CommentsEditing.pager e2)) =
       S (List.length (CommentsSection.toasts (CommentsEditing.pager e)))) /\
  CommentsEditing.posting
    (CommentsEditing.onSubmit_settle (Rejected err) e) = false.
Proof.
  intros failures. split; [ | reflexivity].
  intros e2 [<- | [<- | [<- | []]]]; simpl;
    rewrite length_app; simpl; repeat split; lia.
Qed.
End CommentsMore.

Lemma comment_added_then_removed_witness :
  let e :=
    {| CommentsEditing.pager := Samples.commentsEnv;
       CommentsEditing.posting := true; CommentsEditing.text := "hum";
       CommentsEditing.editingId := None; CommentsEditing.editText := "";
       CommentsEditing.calls := []; CommentsEditing.successes := [] |} in
  let created := Samples.comment "c3" "hum" in
  let e1 := CommentsEditing.onSubmit_settle (Resolved created) e in
  map CommentsSection._id (CommentsEditing.items e1) = ["c3"; "c1"; "c2"] /\
  CommentsEditing.totalDocs e1 = 26 /\
  CommentsEditing.items
    (CommentsEditing.remove_settle "c3" (Resolved tt) e1)
  = CommentsEditing.items e.
Proof.
  intros e created e1.
  assert (Hnew : forall c, In c (CommentsEditing.items e) ->
                           CommentsSection._id c <> CommentsSection._id created).
  { intros c [<- | [<- | []]]; discriminate. }
  assert (Hcount : 0 <= CommentsEditing.totalDocs e) by discriminate.
  destruct (comment_added_then_removed created e Hnew Hcount)
    as (_ & _ & _ & Hitems & _).
  split; [reflexivity | split; [reflexivity | exact Hitems]].
Defined.

Lemma comment_edited_in_place_witness :
  let e :=
    {| CommentsEditing.pager := Samples.commentsEnv;
       CommentsEditing.posting := false; CommentsEditing.text := "";
       CommentsEditing.editingId := Some "c2";
       CommentsEditing.editText := "ho ho";
       CommentsEditing.calls := []; CommentsEditing.successes := [] |} in
  let updated := Samples.comment "c2" "ho ho" in
  let e2 := CommentsEditing.saveEdit_settle "c2" (Resolved updated) e in
  map CommentsSection._id (CommentsEditing.items e2) = ["c1"; "c2"] /\
  map CommentsSection.text (CommentsEditing.items e2) = ["hi"; "ho ho"].
Proof.
  intros e updated e2.
  destruct (comment_edited_in_place "c2" updated e eq_refl) as (Hids & _).
  split; [exact Hids | reflexivity].
Defined.

(** ** The growing limit of the suggestions *)

Section SuggestMore.
Import WatchPage.

Lemma suggest_invariant_step s ev :
  ((exists k, 1 <= k <= 10 /\ suggestLimit s = 12 * k) /\
   suggestBumping s = suggestLockRef s /\
   ((suggestLockRef s = false /\ timeouts s = O) \/
    (suggestLockRef s = true /\ timeouts s = 1%nat))) ->
  ((exists k, 1 <= k <= 10 /\ suggestLimit (suggestStep s ev) = 12 * k) /\
   suggestBumping (suggestStep s ev) = suggestLockRef (suggestStep s ev) /\
   ((suggestLockRef (suggestStep s ev) = false /\
     timeouts (suggestStep s ev) = O) \/
    (suggestLockRef (suggestStep s ev) = true /\
     timeouts (suggestStep s ev) = 1%nat))).
Proof.
  intros ((k & Hk & Hlimit) & Hbump & Hlock).
  destruct ev as [ | limit b | ]; cbn [suggestStep].
  - split; [exists 1; split; [lia | reflexivity] | ]. split; assumption.
  - unfold onSuggestIntersect.
    destruct (negb b); [eauto 6 | ].
    destruct Hlock as [[Hfree Hnone] | [Hheld Hone]].
    + rewrite Hfree.
      destruct (SUGGEST_MAX <=? limit); [eauto 8 | ].
      cbn [suggestLimit suggestBumping suggestLockRef timeouts].
      split; [ | split; [reflexivity | right; now rewrite Hnone]].
      exists (Z.min 10 (k + 1)). unfold SUGGEST_MAX, SUGGEST_BATCH.
      rewrite Hlimit. split; lia.
    + rewrite Hheld. eauto 8.
  - unfold onSuggestTimeout.
    destruct Hlock as [[Hfree Hnone] | [Hheld Hone]].
    + rewrite Hnone. eauto 8.
    + rewrite Hone.
      cbn [suggestLimit suggestBumping suggestLockRef timeouts]. eauto 8.
Qed.

(** X19: whatever the order of route changes, observer callbacks
    (from whatever render) and cooldown timers, the suggestion limit
    is a multiple of 12 between 12 and 120, the lock is held exactly
    while one cooldown timer is pending, never two, and
    [suggestBumping] shows the lock. *)
Theorem suggest_limit_bounded (evs : list SuggestEvent) :
  let s := suggestRun evs in
  (exists k, 1 <= k <= 10 /\ suggestLimit s = 12 * k) /\
  SUGGEST_BATCH <= suggestLimit s <= SUGGEST_MAX /\
  suggestBumping s = suggestLockRef s /\
  (suggestLockRef s = true <-> timeouts s = 1%nat) /\
  (timeouts s <= 1)%nat.
Proof.
  intros s.
  assert (Hinv :
    (exists k, 1 <= k <= 10 /\ suggestLimit s = 12 * k) /\
    suggestBumping s = suggestLockRef s /\
    ((suggestLockRef s = false /\ timeouts s = O) \/
     (suggestLockRef s = true /\ timeouts s = 1%nat))).
  { subst s. unfold suggestRun.
    assert (Hrun : forall evs0 s0,
      ((exists k, 1 <= k <= 10 /\ suggestLimit s0 = 12 * k) /\
       suggestBumping s0 = suggestLockRef s0 /\
       ((suggestLockRef s0 = false /\ timeouts s0 = O) \/
        (suggestLockRef s0 = true /\ timeouts s0 = 1%nat))) ->
      let s1 := fold_left suggestStep evs0 s0 in
      ((exists k, 1 <= k <= 10 /\ suggestLimit s1 = 12 * k) /\
       suggestBumping s1 = suggestLockRef s1 /\
       ((suggestLockRef s1 = false /\ timeouts s1 = O) \/
        (suggestLockRef s1 = true /\ timeouts s1 = 1%nat)))).
    { induction evs0 as [|ev evs0 IH]; intros s0 H0; [exact H0 | ].
      simpl. apply IH. now apply suggest_invariant_step. }
    apply Hrun. split; [exists 1; split; [lia | reflexivity] | ].
    split; [reflexivity | left; split; reflexivity]. }
  destruct Hinv as ((k & Hk & Hlimit) & Hbump & Hlock).
  split; [eauto | ].
  split; [unfold SUGGEST_BATCH, SUGGEST_MAX; lia | ].
  split; [assumption | ].
  destruct Hlock as [[Hfree Hnone] | [Hheld Hone]];
    rewrite ?Hfree, ?Hnone, ?Hheld, ?Hone;
    (split; [split; intros Hx; congruence | lia]).
Qed.

(** X20: the watch-history effect makes at most one call per run,
    makes none for a page without video, and running it again for the
    same video makes no second call. *)
Theorem watch_history_once (c : Watch.State) (h : History) :
  watchHistoryEffect c (watchHistoryEffect c h) = watchHistoryEffect c h /\
  (addToWatchHistory (watchHistoryEffect c h) = addToWatchHistory h \/
   exists id,
     Watch.videoId c = Some id /\
     watchHistoryAddedForRef h <> Some id /\
     addToWatchHistory (watchHistoryEffect c h) =
       (addToWatchHistory h ++ [id])%list) /\
  (Watch.videoId c = None -> watchHistoryEffect c h = h).
Proof.
  unfold watchHistoryEffect.
  destruct (Watch.videoId c) as [id|]; [ | auto].
  split; [ | split; [ | discriminate]].
  - destruct (watchHistoryAddedForRef h) as [last|] eqn:Href.
    + destruct (String.eqb last id) eqn:Heq.
      * now rewrite Href, Heq.
      * simpl. now rewrite String.eqb_refl.
    + simpl. now rewrite String.eqb_refl.
  - destruct (watchHistoryAddedForRef h) as [last|].
    + destruct (String.eqb_spec last id) as [-> | Hne]; [now left | ].
      right. exists id. repeat split. congruence.
    + right. exists id. repeat split. discriminate.
Qed.
End SuggestMore.

(** ** Texts shown to the user *)

Section TextsMore.
Import Format.




Lemma showZ_head (n : Z) :
  exists ch rest, showZ n = String ch rest /\ ch <> "j"%char.
Proof.
  unfold showZ. destruct (Z.to_int n) as [d | d]; simpl.
  - destruct d; simpl; eexists; eexists; split;
      try reflexivity; discriminate.
  - eexists. eexists. split; [reflexivity | discriminate].
Qed.

Lemma shown_is_not_just_now (n : Z) (rest : string) :
  showZ n ++ rest <> "just now".
Proof.
  destruct (showZ_head n) as (ch & tl & -> & Hch).
  simpl. intros [= Heq _]. contradiction.
Qed.

(** X22: [timeAgo] answers "just now" exactly when the date is invalid
    or less than a minute has passed, which includes every date in the
    future. *)
Theorem timeAgo_just_now (now : Z) (time : option Z) :
  timeAgo now time = "just now" <->
  match time with
  | None => True
  | Some t => now - t < 60000
  end.
Proof.
  destruct time as [t|]; [ | simpl; tauto].
  unfold timeAgo.
  set (diff := now - t).
  set (sec := diff / 1000). set (min := sec / 60). set (hr := min / 60).
  set (day := hr / 24).
  assert (Hmin : min < 1 <-> diff < 60000).
  { subst min sec. split; intros Hlt.
    - apply Z.nle_gt. intros Hge. apply Z.nle_gt in Hlt. apply Hlt.
      apply Z.div_le_lower_bound; [lia | ].
      apply Z.div_le_lower_bound; lia.
    - apply Z.div_lt_upper_bound; [lia | ].
      apply Z.div_lt_upper_bound; lia. }
  split.
  - intros Hout. apply Hmin. apply Z.nle_gt. intros Hge.
    repeat match type of Hout with
           | (if ?b then _ else _) = _ =>
               destruct b eqn:?;
               [now apply shown_is_not_just_now in Hout | ]
           end.
    apply Z.ltb_ge in Heqb3. lia.
  - intros Hlt. apply Hmin in Hlt.
    assert (Hhr : hr < 1)
      by (subst hr; apply Z.div_lt_upper_bound; lia).
    assert (Hday : day < 1)
      by (subst day; apply Z.div_lt_upper_bound; lia).
    assert (Hmo : day / 30 < 1) by (apply Z.div_lt_upper_bound; lia).
    assert (Hyr : day / 365 < 1) by (apply Z.div_lt_upper_bound; lia).
    repeat match goal with
           | |- (if 0 <? ?x then _ else _) = _ =>
               destruct (Z.ltb_spec 0 x); [lia | ]
           end.
    reflexivity.
Qed.

(** X23: a date 360 to 364 days back reads "12 months ago": months
    are counted in thirties and a year only starts at 365 days. *)
Theorem timeAgo_twelve_months (now t : Z) :
  360 * 86400000 <= now - t < 365 * 86400000 ->
  timeAgo now (Some t) = "12 months ago".
Proof.
  intros [Hlow Hhigh]. unfold timeAgo.
  set (diff := now - t) in *.
  assert (Hday : 360 <= diff / 1000 / 60 / 60 / 24 < 365).
  { split.
    - repeat (apply Z.div_le_lower_bound; [lia | ]). lia.
    - repeat (apply Z.div_lt_upper_bound; [lia | ]). lia. }
  set (day := diff / 1000 / 60 / 60 / 24) in *.
  assert (Hyr : day / 365 = 0) by (apply Z.div_small; lia).
  assert (Hmo : day / 30 = 12).
  { symmetry. apply (Z.div_unique day 30 12 (day - 360)); lia. }
  rewrite Hyr, Hmo. reflexivity.
Qed.



(** X25: anything below one second, zero and negative numbers
    included, is shown as "0:00". *)
Theorem secondsToDuration_below_one (sec : Q) :
  (sec < 1)%Q -> secondsToDuration sec = "0:00".
Proof.
  intros Hlt.
  assert (Hfloor : Qfloor sec <= 0).
  { assert (Hq : (inject_Z (Qfloor sec) < inject_Z 1)%Q).
    { eapply Qle_lt_trans; [apply Qfloor_le | exact Hlt]. }
    rewrite <- Zlt_Qlt in Hq. lia. }
  unfold secondsToDuration.
  replace (Z.max 0 (Qfloor sec)) with 0 by lia.
  reflexivity.
Qed.
End TextsMore.

(** ** The properties above at sample inputs *)

Lemma Threads_single_flight_witness :
  let s :=
    @ThreadsRun.run (fun html => html)
      [ThreadsRun.Refresh false; ThreadsRun.Mount;
       ThreadsRun.Intersect Threads.initial true] in
  ThreadsRun.refreshing s = true /\
  List.length (Threads.requests (ThreadsRun.env s)) = 1%nat /\
  exists p, ThreadsRun.inflight s = [(p, true)].
Proof.
  intros s.
  destruct (@Threads_single_flight (fun html => html)
              [ThreadsRun.Refresh false; ThreadsRun.Mount;
               ThreadsRun.Intersect Threads.initial true])
    as (_ & _ & _ & Hrefresh).
  split; [reflexivity | split; [reflexivity | ]].
  apply Hrefresh. reflexivity.
Defined.

Lemma playlist_ids_clean_witness :
  let videos :=
    Some [Watch.VideoDoc (Some "vid9"); Watch.VideoNull;
          Watch.VideoId "undefined"; Watch.VideoId ""; Watch.VideoId "vid7"] in
  Watch.getIdsFromPlaylistVideos videos = ["vid9"; "vid7"] /\
  "vid9" <> "null".
Proof.
  intros videos. split; [reflexivity | ].
  destruct (playlist_ids_clean videos) as (Hclean & _).
  apply (Hclean "vid9"). simpl. auto.
Defined.

Lemma comment_failures_change_nothing_witness :
  let e :=
    {| CommentsEditing.pager := Samples.commentsEnv;
       CommentsEditing.posting := true; CommentsEditing.text := "hum";
       CommentsEditing.editingId := None; CommentsEditing.editText := "";
       CommentsEditing.calls := []; CommentsEditing.successes := [] |} in
  let e2 := CommentsEditing.onSubmit_settle (Rejected Samples.networkError) e in
  CommentsEditing.items e2 = CommentsEditing.items e /\
  CommentsEditing.text e2 = "hum" /\
  CommentsSection.toasts (CommentsEditing.pager e2) = ["Network Error"].
Proof.
  intros e e2.
  destruct (comment_failures_change_nothing "c1" Samples.networkError e)
    as (Hsame & _).
  destruct (Hsame e2 (or_introl eq_refl)) as (Hitems & _ & Htext & _).
  split; [exact Hitems | split; [exact Htext | reflexivity]].
Defined.

Lemma watch_history_once_witness :
  let h := WatchPage.watchHistoryEffect Samples.watchState WatchPage.noHistory in
  WatchPage.addToWatchHistory h = ["vid1"] /\
  WatchPage.watchHistoryEffect Samples.watchState h = h.
Proof.
  intros h. split; [reflexivity | ].
  destruct (watch_history_once Samples.watchState WatchPage.noHistory)
    as (Hagain & _).
  exact Hagain.
Defined.


Lemma timeAgo_twelve_months_witness :
  360 * 86400000 <= 31190400000 - 0 < 365 * 86400000 /\
  Format.timeAgo 31190400000 (Some 0) = "12 months ago".
Proof.
  assert (Hrange : 360 * 86400000 <= 31190400000 - 0 < 365 * 86400000)
    by lia.
  split; [exact Hrange | ].
  apply (timeAgo_twelve_months 31190400000 0 Hrange).
Defined.

Lemma secondsToDuration_below_one_witness :
  (-5 # 2 < 1)%Q /\ Format.secondsToDuration (-5 # 2) = "0:00".
Proof.
  assert (Hlt : (-5 # 2 < 1)%Q) by reflexivity.
  split; [exact Hlt | ].
  apply (secondsToDuration_below_one (-5 # 2) Hlt).
Defined.

(** [secondsToDuration] on an hour, a minute and a second and a half,
    and on just under ten minutes. *)
Example secondsToDuration_samples :
  Format.secondsToDuration (7323 # 2) = "1:01:01" /\
  Format.secondsToDuration (599 # 1) = "9:59".
Proof. split; reflexivity. Qed.

(** ** The merged collection in closed form *)

Section MergeClosedForm.
Context {T : Type} `{Keyed T}.
Implicit Types (prev docs : list T) (m : JsMap.t T) (k : string).

Lemma get_app k (m1 m2 : JsMap.t T) :
  JsMap.get k (m1 ++ m2)%list =
  match JsMap.get k m1 with
  | Some v => Some v
  | None => JsMap.get k m2
  end.
Proof.
  induction m1 as [|[k0 v0] m1 IH]; simpl; [reflexivity | ].
  destruct (String.eqb k k0); [reflexivity | apply IH].
Qed.

Lemma keys_setAll_distinct docs : forall m,
  NoDup (map keyOf docs) ->
  JsMap.keys (setAll docs m) =
  (JsMap.keys m ++
   filter (fun k => negb (JsMap.has k m)) (map keyOf docs))%list.
Proof.
  induction docs as [|x docs IH]; intros m Hnd.
  - simpl. now rewrite app_nil_r.
  - inversion Hnd as [|? ? Hnin Hnd']; subst.
    rewrite setAll_cons, IH by assumption. rewrite keys_set. simpl.
    assert (Hsame : forall m',
      JsMap.keys m' = (JsMap.keys m ++ [keyOf x])%list ->
      filter (fun k => negb (JsMap.has k m')) (map keyOf docs) =
      filter (fun k => negb (JsMap.has k m)) (map keyOf docs)).
    { intros m' Hkeys. apply filter_ext_in. intros k Hk. unfold JsMap.has.
      rewrite Hkeys, existsb_app. simpl.
      destruct (String.eqb_spec k (keyOf x)) as [-> | Hne];
        [contradiction | now rewrite !orb_false_r]. }
    destruct (JsMap.has (keyOf x) m) eqn:Hhas; simpl.
    + f_equal. apply filter_ext. intros k. unfold JsMap.has.
      now rewrite keys_set_present by now apply has_In.
    + rewrite <- app_assoc. simpl. f_equal. f_equal.
      apply Hsame. rewrite keys_set, Hhas. reflexivity.
Qed.

Lemma lastWithKey_key k docs x :
  lastWithKey k docs = Some x -> In x docs /\ keyOf x = k.
Proof.
  unfold lastWithKey. intros Hfind. apply find_some in Hfind.
  destruct Hfind as [Hin Heq]. apply in_rev in Hin.
  apply String.eqb_eq in Heq. now split.
Qed.

Lemma lastWithKey_none k docs :
  lastWithKey k docs = None -> ~ In k (map keyOf docs).
Proof.
  unfold lastWithKey. intros Hfind Hin. apply in_map_iff in Hin.
  destruct Hin as (x & Hx & Hin). apply in_rev in Hin.
  pose proof (find_none _ _ Hfind x Hin) as Hneq. simpl in Hneq.
  rewrite <- Hx, String.eqb_refl in Hneq. discriminate.
Qed.

Lemma keys_of_fresh prev docs :
  map keyOf
    (filter (fun x => negb (existsb (String.eqb (keyOf x)) (map keyOf prev)))
            docs) =
  filter (fun k => negb (JsMap.has k (map entry prev))) (map keyOf docs).
Proof.
  induction docs as [|x xs IH]; [reflexivity | ]. simpl.
  rewrite has_entries.
  destruct (existsb (String.eqb (keyOf x)) (map keyOf prev)); simpl;
    now rewrite IH.
Qed.

(** X26: with distinct [_id]s in the previous collection and in the
    page, the merged collection is the previous collection, each item
    replaced by the page's item of the same [_id] if there is one,
    followed by the page's items whose [_id] is new, in page order. *)
Theorem mergeById_closed_form prev docs :
  NoDup (map keyOf prev) -> NoDup (map keyOf docs) ->
  mergeById prev docs =
  (map (fun y => match lastWithKey (keyOf y) docs with
                 | Some x => x
                 | None => y
                 end) prev
   ++ filter (fun x => negb (existsb (String.eqb (keyOf x)) (map keyOf prev)))
             docs)%list.
Proof.
  intros Hprev Hdocs.
  set (upd := fun y => match lastWithKey (keyOf y) docs with
                       | Some x => x
                       | None => y
                       end).
  set (fresh := fun x =>
         negb (existsb (String.eqb (keyOf x)) (map keyOf prev))).
  assert (Hupd : forall y, keyOf (upd y) = keyOf y).
  { intros y. unfold upd.
    destruct (lastWithKey (keyOf y) docs) eqn:Hlast; [ | reflexivity].
    now apply lastWithKey_key in Hlast. }
  assert (Hkeys_upd : map keyOf (map upd prev) = map keyOf prev).
  { rewrite map_map. apply List.map_ext. exact Hupd. }
  assert (Hkeys_fresh :
    map keyOf (filter fresh docs) =
    filter (fun k => negb (JsMap.has k (map entry prev))) (map keyOf docs))
    by apply keys_of_fresh.
  assert (Hnd_fresh : NoDup (map keyOf (filter fresh docs))).
  { rewrite Hkeys_fresh. now apply List.NoDup_filter. }
  unfold mergeById. rewrite setAll_seed by assumption.
  replace (map upd prev ++ filter fresh docs)%list
    with (JsMap.values (map entry (map upd prev ++ filter fresh docs)))
    by (unfold JsMap.values; rewrite map_map; apply map_id).
  f_equal. apply map_ext.
  - apply NoDup_keys_setAll. now rewrite keys_entries.
  - rewrite keys_setAll_distinct by assumption.
    rewrite !keys_entries, map_app, Hkeys_upd, Hkeys_fresh. reflexivity.
  - intros k. rewrite get_setAll, latest_lastWithKey, map_app, get_app.
    destruct (in_dec string_dec k (map keyOf prev)) as [Hin | Hnin].
    + apply in_map_iff in Hin. destruct Hin as (y & <- & Hy).
      rewrite (get_entries prev y) by assumption.
      rewrite <- (Hupd y).
      rewrite (get_entries (map upd prev) (upd y));
        [ | now rewrite Hkeys_upd | now apply in_map].
      rewrite (Hupd y). unfold upd.
      destruct (lastWithKey (keyOf y) docs); reflexivity.
    + rewrite (get_None k (map entry prev)) by now rewrite keys_entries.
      rewrite (get_None k (map entry (map upd prev)))
        by now rewrite keys_entries, Hkeys_upd.
      destruct (lastWithKey k docs) as [x|] eqn:Hlast.
      * destruct (lastWithKey_key k docs x Hlast) as [Hx <-].
        rewrite get_entries; [reflexivity | assumption | ].
        apply filter_In. split; [assumption | ]. unfold fresh.
        destruct (existsb _ (map keyOf prev)) eqn:Hex; [ | reflexivity].
        exfalso. apply Hnin. apply existsb_exists in Hex.
        destruct Hex as (k' & Hk' & Heq). apply String.eqb_eq in Heq.
        now subst.
      * symmetry. apply get_None. rewrite keys_entries.
        intros Hin. apply (lastWithKey_none k docs Hlast).
        apply in_map_iff in Hin. destruct Hin as (x & <- & Hx).
        apply filter_In in Hx. now apply in_map.
Qed.
End MergeClosedForm.

Lemma mergeById_closed_form_witness :
  map (fun v => (Home._id v, Home.title v))
      (mergeById (firstn 2 (skipn 8 Samples.pageOne))
                 (firstn 2 Samples.pageTwo))
  = [("v09", "page one"); ("v10", "page two"); ("v11", "page two")].
Proof.
  assert (Hone : NoDup (map keyOf (firstn 2 (skipn 8 Samples.pageOne))))
    by (repeat constructor; simpl; intuition discriminate).
  assert (Htwo : NoDup (map keyOf (firstn 2 Samples.pageTwo)))
    by (repeat constructor; simpl; intuition discriminate).
  rewrite (mergeById_closed_form
             (firstn 2 (skipn 8 Samples.pageOne))
             (firstn 2 Samples.pageTwo) Hone Htwo).
  reflexivity.
Defined.

(** ** The error banner of Threads *)

Section ThreadsError.
Context `{HtmlErrorPages}.

(** X27: every fetch of Threads first clears the error banner; when
    the fetch fails, the banner holds the very text that is toasted
    and rows, page and total are as before; when it succeeds, the
    banner stays clear. *)
Theorem Threads_error_banner targetPage append e e1 p :
  Threads.fetchPage_start targetPage append e = (e1, Some p) ->
  Threads.error (Threads.state e1) = None /\
  (forall err,
      let e2 := Threads.fetchPage_settle p (Rejected err) e1 in
      (exists msg,
          Threads.error (Threads.state e2) = Some msg /\
          Threads.toasts e2 = (Threads.toasts e ++ [msg])%list) /\
      Threads.rows (Threads.state e2) = Threads.rows (Threads.state e) /\
      Threads.page (Threads.state e2) = Threads.page (Threads.state e) /\
      Threads.totalPages (Threads.state e2) =
        Threads.totalPages (Threads.state e)) /\
  (forall data,
      Threads.error
        (Threads.state (Threads.fetchPage_settle p (Resolved data) e1))
      = None).
Proof.
  unfold Threads.fetchPage_start.
  destruct (Threads.loadingRef e); [discriminate | ].
  intros [= <- <-].
  split; [destruct append; reflexivity | ]. split.
  - intros err. cbv zeta. unfold Threads.fetchPage_settle, Threads.showError.
    destruct append; simpl; repeat split; eexists; split; reflexivity.
  - intros data. unfold Threads.fetchPage_settle.
    destruct append; reflexivity.
Qed.
End ThreadsError.

Lemma Threads_error_banner_witness :
  let e := ThreadsRun.env ThreadsRun.initial in
  exists e1 p,
    Threads.fetchPage_start 1 false e = (e1, Some p) /\
    let e2 :=
      @Threads.fetchPage_settle (fun html => html) p
        (Rejected Samples.networkError) e1 in
    Threads.error (Threads.state e2) = Some "Network Error" /\
    Threads.toasts e2 = ["Network Error"] /\
    Threads.page (Threads.state e2) = 1.
Proof.
  intros e. eexists. eexists. split; [reflexivity | ].
  destruct (@Threads_error_banner (fun html => html) 1 false e _ _ eq_refl)
    as (_ & Hfail & _).
  destruct (Hfail Samples.networkError) as (_ & _ & Hpage & _).
  split; [reflexivity | split; [reflexivity | exact Hpage]].
Defined.
